(** * uuv_mission: closed-loop depth control of an underwater vehicle

    A shallow embedding of [uuv_mission/controll.py] and
    [uuv_mission/dynamic.py], and the properties of the simulation engine
    proved about it.

    Numbers.  Python's [float] and the elements of numpy's float64 arrays are
    IEEE 754 binary64 values: they are Rocq's primitive floats, with the
    same operations and the same rounding.  The attributes that the code
    only ever assigns Python [int]s to and combines with [int]s ([pos_x],
    [vel_x], [dt]) are [Z]; where Python multiplies such an [int] with a
    float it converts it first, which is [of_int].  The [int] constants
    that only meet floats ([mass = 1], [actuator_gain = 1], the initial
    [pos_y = 0], [vel_y = 0], [previous_error = 0]) are the floats of the
    same value: the conversion is exact and Python performs it at the first
    operation.  Sequences (numpy arrays and lists) are lists, indexed with
    stdpp's lookup and updated with its insert. *)

From Stdlib Require Import ZArith Lia Bool.
From Stdlib Require Import Floats.
From stdpp Require Import base option list.

Set Warnings "-inexact-float".

(** ** Numbers and exceptions *)

(** Python's conversion of an [int] to [float]: rounding to the nearest
    binary64 value, ties to even.  (Beyond the binary64 range Python raises
    [OverflowError] where this gives an infinity; the simulation counts
    steps, and does not get there.) *)
Definition of_int (z : Z) : float :=
  SF2Prim (binary_normalize prec emax z 0 false).

Inductive exn : Type :=
  | ValueError
  | IndexError.

Inductive result (A : Type) : Type :=
  | Ok (a : A)
  | Raise (e : exn).
Arguments Ok {A} a.
Arguments Raise {A} e.

(** Indexing a sequence with a non-negative index: [xs[i]]. *)
Definition index {A} (xs : list A) (i : nat) : result A :=
  match xs !! i with
  | Some x => Ok x
  | None => Raise IndexError
  end.

(** ** controll.py: the PD controller *)

Module PDController.

Record t : Type := mk {
  kp : float;
  kd : float;
  previous_error : float
}.

(** [PDController.__init__(kp, kd)] *)
Definition init (kp kd : float) : t :=
  {| kp := kp; kd := kd; previous_error := 0%float |}.

(** [PDController()] : the default gains. *)
Definition default : t := init 0.15%float 0.6%float.

Definition set_previous_error (e : float) (self : t) : t :=
  {| kp := kp self; kd := kd self; previous_error := e |}.

(** [compute_control_action(self, reference, current_depth)]: the value
    returned and the controller after the call. *)
Definition compute_control_action (reference current_depth : float) (self : t)
  : float * t :=
  let error := (reference - current_depth)%float in
  let control_action :=
    (kp self * error + kd self * (error - previous_error self))%float in
  let self := set_previous_error error self in
  (control_action, self).

End PDController.

(** ** dynamic.py: the vehicle *)

Module Submarine.

Record t : Type := mk {
  mass : float;
  drag : float;
  actuator_gain : float;
  dt : Z;
  pos_x : Z;
  pos_y : float;
  vel_x : Z;
  vel_y : float
}.

(** [Submarine()] *)
Definition init : t :=
  {| mass := 1; drag := 0.1; actuator_gain := 1; dt := 1;
     pos_x := 0; pos_y := 0; vel_x := 1; vel_y := 0 |}.

Definition set_pos_x (v : Z) (self : t) : t :=
  {| mass := mass self; drag := drag self; actuator_gain := actuator_gain self;
     dt := dt self; pos_x := v; pos_y := pos_y self;
     vel_x := vel_x self; vel_y := vel_y self |}.

Definition set_pos_y (v : float) (self : t) : t :=
  {| mass := mass self; drag := drag self; actuator_gain := actuator_gain self;
     dt := dt self; pos_x := pos_x self; pos_y := v;
     vel_x := vel_x self; vel_y := vel_y self |}.

Definition set_vel_x (v : Z) (self : t) : t :=
  {| mass := mass self; drag := drag self; actuator_gain := actuator_gain self;
     dt := dt self; pos_x := pos_x self; pos_y := pos_y self;
     vel_x := v; vel_y := vel_y self |}.

Definition set_vel_y (v : float) (self : t) : t :=
  {| mass := mass self; drag := drag self; actuator_gain := actuator_gain self;
     dt := dt self; pos_x := pos_x self; pos_y := pos_y self;
     vel_x := vel_x self; vel_y := v |}.

(** [transition(self, action, disturbance)]: one statement per line of the
    source, each reading the attributes as the statements before it left
    them. *)
Definition transition (action disturbance : float) (self : t) : t :=
  let self := set_pos_x (pos_x self + vel_x self * dt self)%Z self in
  let self := set_pos_y (pos_y self + vel_y self * of_int (dt self))%float self in
  let force_y :=
    (- drag self * vel_y self + actuator_gain self * (action + disturbance))%float in
  let acc_y := (force_y / mass self)%float in
  set_vel_y (vel_y self + acc_y * of_int (dt self))%float self.

Definition get_depth (self : t) : float := pos_y self.

Definition get_position (self : t) : Z * float := (pos_x self, pos_y self).

Definition reset_state (self : t) : t :=
  let self := set_pos_x 0 self in
  let self := set_pos_y 0 self in
  let self := set_vel_x 1 self in
  set_vel_y 0 self.

End Submarine.

(** ** dynamic.py: trajectories and missions *)

(** [Trajectory.position] is a T x 2 float64 array: a row per step, the pair
    of its two columns. *)
Record Trajectory : Type := mkTrajectory {
  position : list (float * float)
}.

(** The column [position[:, 1]]. *)
Definition column_y (tr : Trajectory) : list float := (position tr).*2.

(** The column [position[:, 0]]. *)
Definition column_x (tr : Trajectory) : list float := (position tr).*1.

Record Mission : Type := mkMission {
  reference : list float;
  cave_height : list float;
  cave_depth : list float
}.

(** ** dynamic.py: the closed loop *)

Module ClosedLoop.

Record t : Type := mk {
  plant : Submarine.t;
  controller : PDController.t
}.

(** [ClosedLoop(plant, controller)] *)
Definition init (plant : Submarine.t) (controller : PDController.t) : t :=
  {| plant := plant; controller := controller |}.

(** A method of the driver runs on the driver's attributes, which it may
    mutate, and returns a value or raises: what an exception leaves behind
    is the state as mutated until then. *)
Definition M (A : Type) : Type := t -> result A * t.

Definition ret {A} (a : A) : M A := fun self => (Ok a, self).

Definition bind {A B} (m : M A) (k : A -> M B) : M B :=
  fun self =>
    match m self with
    | (Ok a, self) => k a self
    | (Raise e, self) => (Raise e, self)
    end.

Definition raise {A} (e : exn) : M A := fun self => (Raise e, self).

(** Evaluating an expression that may raise. *)
Definition eval {A} (r : result A) : M A := fun self => (r, self).

(** [self.plant.f()] for a method that reads the plant. *)
Definition plant_get {A} (f : Submarine.t -> A) : M A :=
  fun self => (Ok (f (plant self)), self).

(** [self.plant.f()] for a method that mutates the plant. *)
Definition plant_do (f : Submarine.t -> Submarine.t) : M unit :=
  fun self => (Ok tt, {| plant := f (plant self); controller := controller self |}).

(** [self.controller.f()] for a method that returns a value and mutates the
    controller. *)
Definition controller_do {A} (f : PDController.t -> A * PDController.t) : M A :=
  fun self =>
    let '(a, c) := f (controller self) in
    (Ok a, {| plant := plant self; controller := c |}).

Declare Scope cl_scope.
Delimit Scope cl_scope with cl.
Notation "x <- m ;; k" := (bind m (fun x => k))
  (at level 100, m at next level, right associativity) : cl_scope.
Notation "m ;;; k" := (bind m (fun _ => k))
  (at level 100, right associativity) : cl_scope.

(** [for x in xs: body], the body threading the local variables [acc]. *)
Fixpoint for_each {X A} (xs : list X) (body : X -> A -> M A) (acc : A) : M A :=
  match xs with
  | [] => ret acc
  | x :: xs => bind (body x acc) (for_each xs body)
  end.

(** The body of the loop of [simulate], on the local arrays [positions] and
    [actions]. *)
Definition simulate_body (mission : Mission) (disturbances : list float)
    (t : nat) (locals : list (float * float) * list float)
  : M (list (float * float) * list float) :=
  (let '(positions, actions) := locals in
   p <- plant_get Submarine.get_position ;;
   let positions := <[t := (of_int p.1, p.2)]> positions in
   observation_t <- plant_get Submarine.get_depth ;;
   reference_t <- eval (index (reference mission) t) ;;
   action <- controller_do
               (PDController.compute_control_action reference_t observation_t) ;;
   let actions := <[t := action]> actions in
   action_t <- eval (index actions t) ;;
   disturbance_t <- eval (index disturbances t) ;;
   plant_do (Submarine.transition action_t disturbance_t) ;;;
   ret (positions, actions))%cl.

(** [simulate(self, mission, disturbances)] *)
Definition simulate (mission : Mission) (disturbances : list float)
  : M Trajectory :=
  (let T := length (reference mission) in
   if (length disturbances <? T)%nat then raise ValueError
   else
     let positions := replicate T (0%float, 0%float) in
     let actions := replicate T 0%float in
     plant_do Submarine.reset_state ;;;
     locals <- for_each (seq 0 T) (simulate_body mission disturbances)
                        (positions, actions) ;;
     ret (mkTrajectory locals.1))%cl.

End ClosedLoop.

(** ** dynamic.py: the numpy operations of the performance metrics *)

(** An element-wise operation on two one-dimensional arrays, with numpy's
    broadcasting: shapes agree when they are equal or one of them is 1, and
    the array of one element is then used at every index of the other. *)
Definition np_broadcast {A B} (f : A -> A -> B) (a b : list A) : result (list B) :=
  if (length a =? length b)%nat then Ok (zip_with f a b)
  else match a, b with
       | [x], _ => Ok (f x <$> b)
       | _, [y] => Ok ((fun x => f x y) <$> a)
       | _, _ => Raise ValueError
       end.

(** [np.abs] on an array. *)
Definition np_abs (a : list float) : list float := abs <$> a.

(** [np.maximum] on two scalars: the larger one, and a NaN whenever one of
    them is a NaN. *)
Definition np_maximum (a b : float) : float :=
  if (b <=? a)%float || is_nan a then a else b.

(** [np.max] on an array: the reduction by [np.maximum]; it raises on an
    empty array. *)
Definition np_max (a : list float) : result float :=
  match a with
  | [] => Raise ValueError
  | x :: xs => Ok (foldl np_maximum x xs)
  end.

(** [a[-1]] *)
Definition index_last {A} (a : list A) : result A :=
  match last a with
  | Some x => Ok x
  | None => Raise IndexError
  end.

(** [range(start, 0, -1)] for [start = T - 1]: T-1, T-2, ..., 1. *)
Definition range_down (T : nat) : list nat := reverse (seq 1 (T - 1)).

(** [next((i for i in idx if not within[i]), default)]: the first index of
    [idx] whose entry of [within] is false. *)
Fixpoint next_not_within (within : list bool) (idx : list nat) (default : Z)
  : result Z :=
  match idx with
  | [] => Ok default
  | i :: idx =>
      match index within i with
      | Ok w => if negb w then Ok (Z.of_nat i) else next_not_within within idx default
      | Raise e => Raise e
      end
  end.

Definition rbind {A B} (r : result A) (k : A -> result B) : result B :=
  match r with
  | Ok a => k a
  | Raise e => Raise e
  end.

Declare Scope result_scope.
Delimit Scope result_scope with result.
Notation "x <- r ;; k" := (rbind r (fun x => k))
  (at level 100, r at next level, right associativity) : result_scope.

(** The three numbers that [calculate_performance_metrics] prints (each
    through the format [.2f], which is not modelled). *)
Record Metrics : Type := mkMetrics {
  overshoot : float;
  steady_state_error : float;
  settling_time_seconds : Z
}.

(** The settling time of [calculate_performance_metrics], before it is
    multiplied by [dt]: lines "tolerance = 0.02" to "settling_time = ...". *)
Definition settling_time (position_y reference_y : list float) : result Z :=
  (let T := length reference_y in
   let tolerance := 0.02%float in
   deviation <- np_broadcast PrimFloat.sub position_y reference_y ;;
   within_tolerance <-
     np_broadcast PrimFloat.ltb (np_abs deviation)
                  (PrimFloat.mul tolerance <$> np_abs reference_y) ;;
   i <- next_not_within within_tolerance (range_down T) (Z.of_nat T - 1) ;;
   Ok (i + 1)%Z)%result.

(** [calculate_performance_metrics(self, trajectory, mission)]; it reads
    [self.plant.dt] and mutates nothing. *)
Definition calculate_performance_metrics (self : ClosedLoop.t)
    (trajectory : Trajectory) (mission : Mission) : result Metrics :=
  (let position_y := column_y trajectory in
   let reference_y := reference mission in
   deviation <- np_broadcast PrimFloat.sub position_y reference_y ;;
   max_deviation <- np_max (np_abs deviation) ;;
   max_reference <- np_max (np_abs reference_y) ;;
   let overshoot := (max_deviation / max_reference * 100)%float in
   last_position <- index_last position_y ;;
   last_reference <- index_last reference_y ;;
   let steady_state_error := abs (last_position - last_reference) in
   settling_time <- settling_time position_y reference_y ;;
   Ok {| overshoot := overshoot;
         steady_state_error := steady_state_error;
         settling_time_seconds :=
           (settling_time * Submarine.dt (ClosedLoop.plant self))%Z |})%result.

(** ** The closed loop, step by step *)

Module Loop.

(** The row that the loop stores into [positions]: the tuple
    [get_position()], converted to float64 by the array. *)
Definition recorded (self : ClosedLoop.t) : float * float :=
  let p := Submarine.get_position (ClosedLoop.plant self) in
  (of_int p.1, p.2).

(** What [simulate] does before the loop: the plant is reset, the
    controller is left as it is. *)
Definition reset (self : ClosedLoop.t) : ClosedLoop.t :=
  {| ClosedLoop.plant := Submarine.reset_state (ClosedLoop.plant self);
     ClosedLoop.controller := ClosedLoop.controller self |}.

(** One iteration on the driver, for the reference and the disturbance of
    the step: the controller acts on the depth observed, the plant moves. *)
Definition step (self : ClosedLoop.t) (rd : float * float) : ClosedLoop.t :=
  let observation := Submarine.get_depth (ClosedLoop.plant self) in
  let '(action, c) :=
    PDController.compute_control_action rd.1 observation
      (ClosedLoop.controller self) in
  {| ClosedLoop.plant := Submarine.transition action rd.2 (ClosedLoop.plant self);
     ClosedLoop.controller := c |}.

(** The driver at the start of step [t]: after the first [t] iterations. *)
Definition before_step (self : ClosedLoop.t) (rds : list (float * float))
    (t : nat) : ClosedLoop.t :=
  foldl step self (take t rds).

(** The rows recorded over the steps [rds], and the driver after them. *)
Fixpoint run (self : ClosedLoop.t) (rds : list (float * float))
  : list (float * float) * ClosedLoop.t :=
  match rds with
  | [] => ([], self)
  | rd :: rds =>
      let '(rows, final) := run (step self rd) rds in
      (recorded self :: rows, final)
  end.

End Loop.

(** ** The settling time as the specification words it *)

(** [within[t] = |position_y[t] - reference[t]| < 0.02 * |reference[t]|] *)
Definition spec_within (position_y reference_y : list float) (t : nat) : option bool :=
  p ← position_y !! t; r ← reference_y !! t;
  Some (abs (p - r) <? 0.02 * abs r)%float.

(** The scan from [t = T-2] down to [t = 1]: T-2, T-3, ..., 1. *)
Definition spec_scan (T : nat) : list nat := reverse (seq 1 (T - 2)).

(** The settling index: the first index of the scan where [within] is false,
    plus 1; [T-1] when there is none. *)
Definition spec_settling_index (position_y reference_y : list float) : Z :=
  let T := length reference_y in
  match
    list_find (fun t => spec_within position_y reference_y t = Some false)
              (spec_scan T)
  with
  | Some (_, i) => Z.of_nat i + 1
  | None => Z.of_nat T - 1
  end.

(** The settling time in seconds: [(settling_index + 1) * dt]. *)
Definition spec_settling_time_seconds (dt : Z) (position_y reference_y : list float)
  : Z :=
  (spec_settling_index position_y reference_y + 1) * dt.

(** ** The maximum of floats *)

(** [m] is the maximum over the array [a]: it is one of its elements, and
    every element is below it or equal to it, unless it is a NaN (which
    [np.max] returns when the array holds one). *)
Definition is_max_of (m : float) (a : list float) : Prop :=
  m ∈ a /\ (is_nan m = true \/ forall x, x ∈ a -> (x <=? m)%float = true).

(** ** The runs used as examples *)

Module Examples.

(** [ClosedLoop(Submarine(), PDController())] *)
Definition driver : ClosedLoop.t :=
  ClosedLoop.init Submarine.init PDController.default.

(** The mission of reference [[0]*5], in a cave between the depths -1 and 1
    (the cave limits play no part in the simulation). *)
Definition flat_mission : Mission :=
  mkMission [0; 0; 0; 0; 0]%float [1; 1; 1; 1; 1]%float
            [-1; -1; -1; -1; -1]%float.

(** A single disturbance, at the first step. *)
Definition kick : list float := [1; 0; 0; 0; 0]%float.

(** A constant reference of 1 over three steps, and no disturbance. *)
Definition unit_mission : Mission :=
  mkMission [1; 1; 1]%float [2; 2; 2]%float [0; 0; 0]%float.
Definition calm : list float := [0; 0; 0]%float.

(** A trajectory on the reference of [unit_mission] but at its middle
    row. *)
Definition dip : Trajectory := mkTrajectory [(0, 1); (1, 0); (2, 1)]%float.

(** A constant reference of 1 over four steps, and a trajectory on it but
    at rows 1 and 3. *)
Definition long_mission : Mission :=
  mkMission [1; 1; 1; 1]%float [2; 2; 2; 2]%float [0; 0; 0; 0]%float.
Definition late_dip : Trajectory :=
  mkTrajectory [(0, 1); (1, 0); (2, 1); (3, 0)]%float.

End Examples.

(** ** dynamic.py: the run on random disturbances *)

(** [simulate_with_random_disturbances(self, mission, variance)], for
    [draws] the array that [np.random.normal(0, variance,
    len(mission.reference))] returns (an array of that length): the value is
    the trajectory returned, together with the metrics printed on the
    way. *)
Definition simulate_with_random_disturbances (draws : list float)
    (mission : Mission) : ClosedLoop.M (Trajectory * Metrics) :=
  let disturbances := draws in
  ClosedLoop.bind (ClosedLoop.simulate mission disturbances) (fun trajectory =>
  ClosedLoop.bind
    (fun self => (calculate_performance_metrics self trajectory mission, self))
    (fun metrics =>
  ClosedLoop.ret (trajectory, metrics))).

(** ** Vocabulary of the further properties *)

(** The attributes of the vehicle that are set at construction only. *)
Definition same_constants (s s' : Submarine.t) : Prop :=
  Submarine.mass s' = Submarine.mass s
  /\ Submarine.drag s' = Submarine.drag s
  /\ Submarine.actuator_gain s' = Submarine.actuator_gain s
  /\ Submarine.dt s' = Submarine.dt s.

(** The constants of [Submarine()]. *)
Definition default_constants (s : Submarine.t) : Prop :=
  same_constants Submarine.init s.

(** A sequence of calls [transition(action, disturbance)]. *)
Definition transitions (calls : list (float * float)) (s : Submarine.t)
  : Submarine.t :=
  foldl (fun s call => Submarine.transition call.1 call.2 s) s calls.

(** The lengths of a trajectory and of a reference that numpy combines
    element by element and reduces: equal, or one of them 1, and none 0. *)
Definition metrics_shapes (n T : nat) : Prop :=
  (n = T /\ 1 <= T) \/ (n = 1 /\ 1 <= T) \/ (T = 1 /\ 1 <= n).

(** * Properties *)

(** ** The controller *)

(** C5: [compute_control_action] returns
    [kp * error + kd * (error - previous_error)] with
    [error = reference - current_depth] for every reference, depth and prior
    controller state; the controller after the call differs from the one
    before only in [previous_error], which is [error]; and on the first call
    of a new controller [previous_error] is 0. *)
Theorem compute_control_action_spec (self : PDController.t)
    (reference current_depth : float) :
  let error := (reference - current_depth)%float in
  PDController.compute_control_action reference current_depth self =
    ((PDController.kp self * error
      + PDController.kd self * (error - PDController.previous_error self))%float,
     PDController.mk (PDController.kp self) (PDController.kd self) error)
  /\ forall kp kd : float,
       PDController.previous_error (PDController.init kp kd) = 0%float
       /\ (PDController.compute_control_action reference current_depth
             (PDController.init kp kd)).1
          = (kp * error + kd * (error - 0))%float.
Proof.
  intros error. split.
  - unfold PDController.compute_control_action, PDController.set_previous_error.
    reflexivity.
  - intros kp kd. split; reflexivity.
Qed.

(** ** The vehicle *)

(** The attributes that [transition] leaves alone. *)
Lemma transition_constants (action disturbance : float) (self : Submarine.t) :
  let self' := Submarine.transition action disturbance self in
  Submarine.mass self' = Submarine.mass self
  /\ Submarine.drag self' = Submarine.drag self
  /\ Submarine.actuator_gain self' = Submarine.actuator_gain self
  /\ Submarine.dt self' = Submarine.dt self
  /\ Submarine.vel_x self' = Submarine.vel_x self.
Proof. destruct self. cbn. repeat split. Qed.

(** C6: for every action, disturbance and vehicle state, [transition] moves
    [pos_x] by [vel_x * dt] and [pos_y] by [vel_y * dt] for the velocity of
    before the step, and then [vel_y] by [acc_y * dt], where
    [force_y = -drag * vel_y + actuator_gain * (action + disturbance)] and
    [acc_y = force_y / mass] are computed from that same old velocity. *)
Theorem transition_ordered_update (action disturbance : float) (self : Submarine.t) :
  let dt := of_int (Submarine.dt self) in
  let force_y :=
    (- Submarine.drag self * Submarine.vel_y self
     + Submarine.actuator_gain self * (action + disturbance))%float in
  let acc_y := (force_y / Submarine.mass self)%float in
  let self' := Submarine.transition action disturbance self in
  Submarine.pos_x self'
    = (Submarine.pos_x self + Submarine.vel_x self * Submarine.dt self)%Z
  /\ Submarine.pos_y self' = (Submarine.pos_y self + Submarine.vel_y self * dt)%float
  /\ Submarine.vel_y self' = (Submarine.vel_y self + acc_y * dt)%float
  /\ Submarine.vel_x self' = Submarine.vel_x self
  /\ Submarine.mass self' = Submarine.mass self
  /\ Submarine.drag self' = Submarine.drag self
  /\ Submarine.actuator_gain self' = Submarine.actuator_gain self
  /\ Submarine.dt self' = Submarine.dt self.
Proof.
  destruct self as [m dr g dt0 px py vx vy].
  unfold Submarine.transition; cbn.
  repeat split.
Qed.

(** ** The loop of [simulate] *)

Lemma run_cons (rd : float * float) (rds : list (float * float))
    (self : ClosedLoop.t) :
  Loop.run self (rd :: rds)
  = (Loop.recorded self :: (Loop.run (Loop.step self rd) rds).1,
     (Loop.run (Loop.step self rd) rds).2).
Proof.
  cbn [Loop.run]. destruct (Loop.run (Loop.step self rd) rds). reflexivity.
Qed.

Lemma run_length (rds : list (float * float)) (self : ClosedLoop.t) :
  length (Loop.run self rds).1 = length rds.
Proof.
  revert self. induction rds as [|rd rds IH]; intros self; [done|].
  rewrite run_cons. cbn [fst length]. by rewrite IH.
Qed.

Lemma run_final (rds : list (float * float)) (self : ClosedLoop.t) :
  (Loop.run self rds).2 = foldl Loop.step self rds.
Proof.
  revert self. induction rds as [|rd rds IH]; intros self; [done|].
  rewrite run_cons. cbn [snd foldl]. apply IH.
Qed.

Lemma run_lookup (rds : list (float * float)) (self : ClosedLoop.t) (t : nat) :
  t < length rds ->
  (Loop.run self rds).1 !! t = Some (Loop.recorded (Loop.before_step self rds t)).
Proof.
  revert self t. induction rds as [|rd rds IH]; intros self t Ht;
    cbn [length] in Ht; [lia|].
  rewrite run_cons. cbn [fst].
  destruct t as [|t]; [done|].
  cbn [lookup list_lookup]. unfold Loop.before_step. cbn [take foldl].
  apply IH. lia.
Qed.

Local Opaque PDController.compute_control_action Submarine.transition
  Submarine.get_depth Submarine.get_position of_int.

(** The loop over [range(k, k + n)], entered with the first [k] rows of
    [positions] written, writes the rows of the remaining steps and leaves
    the driver as they do. *)
Lemma for_each_simulate_body (mission : Mission) (disturbances : list float) :
  forall (rds : list (float * float)) (k : nat)
         (done rest : list (float * float)) (actions : list float)
         (self : ClosedLoop.t),
    drop k (zip (reference mission) disturbances) = rds ->
    length done = k ->
    length rest = length rds ->
    k + length rds <= length actions ->
    exists actions',
      ClosedLoop.for_each (seq k (length rds))
        (ClosedLoop.simulate_body mission disturbances)
        (done ++ rest, actions) self
      = (Ok (done ++ (Loop.run self rds).1, actions'), (Loop.run self rds).2).
Proof.
  induction rds as [|rd rds IH]; intros k done rest actions self Hdrop Hdone Hrest Hact.
  - destruct rest; [|done]. cbn. eexists. reflexivity.
  - destruct rest as [|row rest]; [done|]. cbn in Hrest, Hact.
    assert (Hk : zip (reference mission) disturbances !! k = Some rd).
    { rewrite <- (Nat.add_0_r k), <- lookup_drop, Hdrop. done. }
    pose proof Hk as Hzip.
    apply lookup_zip_with_Some in Hzip as (r & d & -> & Hr & Hd).
    rewrite (drop_S _ _ _ Hk) in Hdrop. injection Hdrop as Hdrop.
    destruct (IH (S k) (done ++ [Loop.recorded self]) rest
                (<[k := (PDController.compute_control_action r
                           (Submarine.get_depth (ClosedLoop.plant self))
                           (ClosedLoop.controller self)).1]> actions)
                (Loop.step self (r, d)) Hdrop) as [actions' IH'].
    { rewrite length_app. cbn. lia. }
    { lia. }
    { rewrite length_insert. lia. }
    exists actions'.
    cbn [length seq ClosedLoop.for_each].
    unfold ClosedLoop.bind at 1.
    replace (ClosedLoop.simulate_body mission disturbances k
               (done ++ row :: rest, actions) self)
      with (Ok ((done ++ [Loop.recorded self]) ++ rest,
                <[k := (PDController.compute_control_action r
                          (Submarine.get_depth (ClosedLoop.plant self))
                          (ClosedLoop.controller self)).1]> actions),
            Loop.step self (r, d)).
    + rewrite IH', run_cons. cbn [fst snd].
      rewrite <- app_assoc. reflexivity.
    + unfold ClosedLoop.simulate_body, ClosedLoop.bind, ClosedLoop.plant_get,
        ClosedLoop.eval, ClosedLoop.controller_do, ClosedLoop.plant_do,
        ClosedLoop.ret, index.
      rewrite Hr. cbn.
      destruct (PDController.compute_control_action r
                  (Submarine.get_depth (ClosedLoop.plant self))
                  (ClosedLoop.controller self)) as [a c] eqn:Hc.
      cbn. rewrite list_lookup_insert_eq by lia. rewrite Hd. cbn.
      rewrite insert_app_r_alt by lia.
      rewrite Hdone, Nat.sub_diag. cbn.
      rewrite <- app_assoc. cbn.
      unfold Loop.step, Loop.recorded. cbn. rewrite Hc. reflexivity.
Qed.

Local Transparent PDController.compute_control_action Submarine.transition
  Submarine.get_depth Submarine.get_position of_int.

(** With disturbances for every step, [simulate] raises nothing: it returns
    the rows recorded over the steps and leaves the driver as the steps
    do. *)
Lemma simulate_ok (mission : Mission) (disturbances : list float)
    (self : ClosedLoop.t) :
  length (reference mission) <= length disturbances ->
  let rds := zip (reference mission) disturbances in
  ClosedLoop.simulate mission disturbances self
  = (Ok (mkTrajectory (Loop.run (Loop.reset self) rds).1),
     (Loop.run (Loop.reset self) rds).2).
Proof.
  intros Hlen rds. unfold ClosedLoop.simulate.
  destruct (Nat.ltb_spec (length disturbances) (length (reference mission)));
    [lia|].
  assert (Hrds : length rds = length (reference mission)).
  { unfold rds. rewrite length_zip_with. lia. }
  destruct (for_each_simulate_body mission disturbances rds 0 []
              (replicate (length (reference mission)) (0%float, 0%float))
              (replicate (length (reference mission)) 0%float)
              (Loop.reset self)) as [actions' Hloop].
  - reflexivity.
  - reflexivity.
  - rewrite length_replicate. lia.
  - rewrite length_replicate. lia.
  - rewrite Hrds in Hloop. cbn [app] in Hloop.
    unfold ClosedLoop.bind at 1. unfold ClosedLoop.plant_do at 1.
    fold (Loop.reset self).
    unfold ClosedLoop.bind. rewrite Hloop. reflexivity.
Qed.

(** Short of disturbances, [simulate] raises [ValueError] at once. *)
Lemma simulate_raises (mission : Mission) (disturbances : list float)
    (self : ClosedLoop.t) :
  length disturbances < length (reference mission) ->
  ClosedLoop.simulate mission disturbances self = (Raise ValueError, self).
Proof.
  intros Hlen. unfold ClosedLoop.simulate.
  destruct (Nat.ltb_spec (length disturbances) (length (reference mission)));
    [reflexivity|lia].
Qed.

(** Two floats that the comparison tells apart are different. *)
Lemma float_neq (x y : float) :
  (x =? y)%float = false -> (y =? y)%float = true -> x <> y.
Proof. intros Hxy Hyy E. rewrite E, Hyy in Hxy. discriminate. Qed.

(** ** [simulate] *)

(** C3: [simulate] raises (a [ValueError]) exactly when the disturbances are
    fewer than the steps of the mission, and whenever it raises the driver is
    as it was before the call: no step has run, the vehicle has not been
    reset and the controller's [previous_error] is untouched. *)
Theorem simulate_raises_iff (mission : Mission) (disturbances : list float)
    (self : ClosedLoop.t) :
  ((ClosedLoop.simulate mission disturbances self).1 = Raise ValueError
   <-> length disturbances < length (reference mission))
  /\ (forall e : exn,
        (ClosedLoop.simulate mission disturbances self).1 = Raise e ->
        e = ValueError
        /\ (ClosedLoop.simulate mission disturbances self).2 = self).
Proof.
  destruct (Nat.lt_ge_cases (length disturbances) (length (reference mission)))
    as [Hlt|Hge].
  - rewrite (simulate_raises _ _ _ Hlt). cbn. split.
    + split; [intros _; exact Hlt | reflexivity].
    + intros e [= <-]. split; reflexivity.
  - rewrite (simulate_ok _ _ _ Hge). cbn. split.
    + split; [discriminate | lia].
    + discriminate.
Qed.

(** C4: with disturbances for every step of a mission of horizon T,
    [simulate] returns a trajectory of exactly T rows and no more; row [t] is
    the position of the vehicle at the start of step [t], before that step's
    transition; row 0 is the reset position (0, 0); and the state after the
    last transition is left in the driver, not in the trajectory. *)
Theorem simulate_trajectory (mission : Mission) (disturbances : list float)
    (self : ClosedLoop.t) :
  length (reference mission) <= length disturbances ->
  let T := length (reference mission) in
  let rds := zip (reference mission) disturbances in
  exists trajectory : Trajectory,
    ClosedLoop.simulate mission disturbances self
    = (Ok trajectory, Loop.before_step (Loop.reset self) rds T)
    /\ length (position trajectory) = T
    /\ (forall t, t < T ->
          position trajectory !! t
          = Some (Loop.recorded (Loop.before_step (Loop.reset self) rds t)))
    /\ (0 < T -> position trajectory !! 0 = Some (0%float, 0%float))
    /\ position trajectory !! T = None.
Proof.
  intros Hlen T rds.
  assert (Hrds : length rds = T).
  { unfold rds, T. rewrite length_zip_with. lia. }
  exists (mkTrajectory (Loop.run (Loop.reset self) rds).1).
  rewrite (simulate_ok _ _ _ Hlen). fold rds. cbn [position].
  split; [|split; [|split; [|split]]].
  - rewrite run_final. unfold Loop.before_step.
    rewrite take_ge by lia. reflexivity.
  - rewrite run_length. exact Hrds.
  - intros t Ht. apply run_lookup. lia.
  - intros HT. rewrite run_lookup by lia. reflexivity.
  - apply lookup_ge_None. rewrite run_length. lia.
Qed.

Lemma simulate_trajectory_witness :
  exists trajectory : Trajectory,
    (ClosedLoop.simulate Examples.flat_mission Examples.kick Examples.driver).1
    = Ok trajectory
    /\ length (position trajectory) = 5.
Proof.
  destruct (simulate_trajectory Examples.flat_mission Examples.kick Examples.driver)
    as (trajectory & Hrun & Hlength & _).
  - cbn. lia.
  - exists trajectory. rewrite Hrun. split; [reflexivity | exact Hlength].
Defined.

(** C9: [simulate] reads the first T disturbances only: on two sequences of
    at least T disturbances that agree on the indices 0 to T-1, and from the
    same driver, it returns the same trajectory (and leaves the same
    driver). *)
Theorem simulate_first_disturbances (mission : Mission)
    (disturbances disturbances' : list float) (self : ClosedLoop.t) :
  let T := length (reference mission) in
  T <= length disturbances ->
  T <= length disturbances' ->
  (forall t, t < T -> disturbances !! t = disturbances' !! t) ->
  ClosedLoop.simulate mission disturbances self
  = ClosedLoop.simulate mission disturbances' self.
Proof.
  intros T Hlen Hlen' Hagree.
  rewrite !simulate_ok by assumption.
  assert (Hzip : zip (reference mission) disturbances
                 = zip (reference mission) disturbances').
  { rewrite <- (zip_with_take_r _ (reference mission) disturbances).
    rewrite <- (zip_with_take_r _ (reference mission) disturbances').
    f_equal. apply list_eq. intros t. fold T.
    destruct (Nat.lt_ge_cases t T) as [Ht|Ht].
    - rewrite !lookup_take_lt by assumption. apply Hagree, Ht.
    - rewrite !lookup_take_ge by assumption. reflexivity. }
  rewrite Hzip. reflexivity.
Qed.

Lemma simulate_first_disturbances_witness :
  ClosedLoop.simulate Examples.unit_mission [0; 0; 0; 7; 8]%float Examples.driver
  = ClosedLoop.simulate Examples.unit_mission Examples.calm Examples.driver.
Proof.
  apply (simulate_first_disturbances Examples.unit_mission
           [0; 0; 0; 7; 8]%float Examples.calm Examples.driver).
  - cbn. lia.
  - cbn. lia.
  - intros [|[|[|t]]] Ht; cbn in Ht; try reflexivity. lia.
Defined.

(** The steps leave the forward velocity and the time step alone. *)
Lemma step_keeps (self : ClosedLoop.t) (rd : float * float) :
  Submarine.vel_x (ClosedLoop.plant (Loop.step self rd))
  = Submarine.vel_x (ClosedLoop.plant self)
  /\ Submarine.dt (ClosedLoop.plant (Loop.step self rd))
     = Submarine.dt (ClosedLoop.plant self)
  /\ Submarine.pos_x (ClosedLoop.plant (Loop.step self rd))
     = (Submarine.pos_x (ClosedLoop.plant self)
        + Submarine.vel_x (ClosedLoop.plant self)
          * Submarine.dt (ClosedLoop.plant self))%Z.
Proof. destruct self as [[] []]. cbn. repeat split. Qed.

(** At unit forward velocity and unit time step, the rows recorded over the
    steps count up from the [pos_x] they start at. *)
Lemma run_column_x (rds : list (float * float)) (self : ClosedLoop.t) :
  Submarine.vel_x (ClosedLoop.plant self) = 1%Z ->
  Submarine.dt (ClosedLoop.plant self) = 1%Z ->
  (Loop.run self rds).1.*1
  = (fun t : nat => of_int (Submarine.pos_x (ClosedLoop.plant self) + Z.of_nat t))
      <$> seq 0 (length rds).
Proof.
  revert self. induction rds as [|rd rds IH]; intros self Hvel Hdt; [done|].
  rewrite run_cons. cbn [fst length seq fmap list_fmap].
  destruct (step_keeps self rd) as (Hvel' & Hdt' & Hpos').
  f_equal.
  - unfold Loop.recorded, Submarine.get_position. cbn [fst].
    f_equal. lia.
  - change (list_fmap _ _ fst ?l) with (l.*1). rewrite IH by congruence.
    rewrite <- fmap_S_seq, <- list_fmap_compose.
    apply list_fmap_ext. intros _ t _. unfold compose.
    rewrite Hpos', Hvel, Hdt. f_equal. lia.
Qed.

(** C10: at the time step [dt = 1], and with disturbances for every step of
    a mission of horizon T, the x-coordinates of the trajectory that
    [simulate] returns are 0, 1, ..., T-1, whatever the reference, the
    disturbances, the gains and the prior state of the controller and of the
    vehicle. *)
Theorem simulate_column_x (mission : Mission) (disturbances : list float)
    (self : ClosedLoop.t) :
  Submarine.dt (ClosedLoop.plant self) = 1%Z ->
  length (reference mission) <= length disturbances ->
  exists trajectory : Trajectory,
    (ClosedLoop.simulate mission disturbances self).1 = Ok trajectory
    /\ column_x trajectory
       = (fun t : nat => of_int (Z.of_nat t)) <$> seq 0 (length (reference mission)).
Proof.
  intros Hdt Hlen.
  rewrite (simulate_ok _ _ _ Hlen). cbn [fst].
  eexists. split; [reflexivity|].
  unfold column_x. cbn [position].
  rewrite run_column_x.
  - rewrite length_zip_with.
    replace (length (reference mission) `min` length disturbances)
      with (length (reference mission)) by lia.
    reflexivity.
  - reflexivity.
  - destruct self as [[] ?]. exact Hdt.
Qed.

Lemma simulate_column_x_witness :
  exists trajectory : Trajectory,
    (ClosedLoop.simulate Examples.flat_mission Examples.kick Examples.driver).1
    = Ok trajectory
    /\ column_x trajectory = [0; 1; 2; 3; 4]%float.
Proof.
  destruct (simulate_column_x Examples.flat_mission Examples.kick Examples.driver)
    as (trajectory & Hrun & Hx).
  - reflexivity.
  - cbn. lia.
  - exists trajectory. split; [exact Hrun|]. rewrite Hx. vm_compute. reflexivity.
Defined.

(** C2, as the code has it: on the reference [[0]*5] with the disturbances
    [[1,0,0,0,0]], the default gains and the default vehicle, the trajectory
    has the y-coordinates 0 at index 0, 0 again at index 1 and 1 at index 2:
    the velocity gained in step 0 moves the vehicle in the transition of
    step 1, after row 1 is recorded. *)
Theorem simulate_kick :
  exists (trajectory : Trajectory) (self' : ClosedLoop.t),
    ClosedLoop.simulate Examples.flat_mission Examples.kick Examples.driver
    = (Ok trajectory, self')
    /\ column_y trajectory !! 0%nat = Some 0%float
    /\ column_y trajectory !! 1%nat = Some 0%float
    /\ column_y trajectory !! 2%nat = Some 1%float.
Proof.
  eexists. eexists. split.
  - vm_compute. reflexivity.
  - cbn. repeat split.
Qed.

(** C2, as the specification words it, fails: the second y-coordinate of
    that trajectory is not 1. *)
Lemma simulate_kick_second_y_not_1 :
  ~ exists (trajectory : Trajectory) (self' : ClosedLoop.t),
      ClosedLoop.simulate Examples.flat_mission Examples.kick Examples.driver
      = (Ok trajectory, self')
      /\ column_y trajectory !! 0%nat = Some 0%float
      /\ column_y trajectory !! 1%nat = Some 1%float.
Proof.
  intros (trajectory & self' & Hrun & _ & Hy).
  apply (f_equal (fun r => match r.1 with
                           | Ok tr => column_y tr !! 1%nat
                           | Raise _ => None
                           end)) in Hrun.
  cbn [fst] in Hrun. rewrite Hy in Hrun.
  apply (f_equal (fun o => match o with
                           | Some y => (y =? 1)%float
                           | None => false
                           end)) in Hrun.
  vm_compute in Hrun. discriminate Hrun.
Qed.

(** C8: the driver does not reset the controller, and [simulate] is not
    idempotent: on a constant reference of 1 over three steps, with no
    disturbance and the default gains, the first call leaves a
    [previous_error] other than the initial 0 in the controller, and the
    second call, on the same driver and the same inputs, returns another
    trajectory. *)
Theorem simulate_not_idempotent :
  exists (mission : Mission) (disturbances : list float),
    reference mission = [1; 1; 1]%float
    /\ disturbances = [0; 0; 0]%float
    /\ exists (first second : Trajectory) (self' self'' : ClosedLoop.t),
         ClosedLoop.simulate mission disturbances Examples.driver
         = (Ok first, self')
         /\ ClosedLoop.simulate mission disturbances self' = (Ok second, self'')
         /\ first <> second
         /\ PDController.previous_error (ClosedLoop.controller Examples.driver)
            = 0%float
         /\ PDController.previous_error (ClosedLoop.controller self') <> 0%float.
Proof.
  exists Examples.unit_mission, Examples.calm.
  split; [reflexivity|]. split; [reflexivity|].
  eexists. eexists. eexists. eexists.
  split; [vm_compute; reflexivity|].
  split; [vm_compute; reflexivity|].
  split; [|split].
  - intros E.
    apply (f_equal (fun tr => match column_y tr !! 2%nat with
                              | Some y => (y =? 0.75)%float
                              | None => false
                              end)) in E.
    vm_compute in E. discriminate E.
  - reflexivity.
  - cbn. apply float_neq; vm_compute; reflexivity.
Qed.

(** ** The order of floats *)

Section SpecFloatOrder.

Local Ltac compare_cases :=
  repeat match goal with
    | |- context [Z.compare ?a ?b] => destruct (Z.compare_spec a b)
    | |- context [Pos.compare ?a ?b] => destruct (Pos.compare_spec a b)
    end.

Lemma SFleb_refl (f : spec_float) : f <> S754_nan -> SFleb f f = true.
Proof.
  intros Hnan. unfold SFleb, SFcompare.
  destruct f as [[]|[]| |[] m e]; try reflexivity; try congruence;
    change (Pos.compare_cont Eq ?a ?b) with (Pos.compare a b);
    rewrite Z.compare_refl, Pos.compare_refl; reflexivity.
Qed.

Lemma SFleb_total (f g : spec_float) :
  f <> S754_nan -> g <> S754_nan -> SFleb g f = false -> SFleb f g = true.
Proof.
  intros Hf Hg. unfold SFleb, SFcompare.
  destruct f as [[]|[]| |[] m e], g as [[]|[]| |[] m' e'];
    try reflexivity; try discriminate; try congruence;
    change (Pos.compare_cont Eq ?a ?b) with (Pos.compare a b);
    compare_cases; cbn; try reflexivity; try discriminate; intros _;
    exfalso; lia.
Qed.

Lemma SFleb_trans (f g h : spec_float) :
  SFleb f g = true -> SFleb g h = true -> SFleb f h = true.
Proof.
  unfold SFleb, SFcompare.
  destruct f as [[]|[]| |[] m e], g as [[]|[]| |[] m' e'],
        h as [[]|[]| |[] m'' e''];
    try reflexivity; try discriminate;
    change (Pos.compare_cont Eq ?a ?b) with (Pos.compare a b);
    compare_cases; cbn; try reflexivity; try discriminate; intros _ _;
    exfalso; lia.
Qed.

Lemma SFmul_comm (f g : spec_float) : SF64mul f g = SF64mul g f.
Proof.
  unfold SF64mul, SFmul.
  destruct f as [[]|[]| |[] m e], g as [[]|[]| |[] m' e'];
    try reflexivity; rewrite (Pos.mul_comm m m'), (Z.add_comm e e');
    reflexivity.
Qed.

End SpecFloatOrder.

Lemma is_nan_false (x : float) : is_nan x = false -> Prim2SF x <> S754_nan.
Proof.
  unfold is_nan. rewrite FloatAxioms.eqb_spec. intros Hx E. rewrite E in Hx.
  discriminate Hx.
Qed.

Lemma float_leb_refl (x : float) : is_nan x = false -> (x <=? x)%float = true.
Proof.
  intros Hx. rewrite leb_spec. apply SFleb_refl, is_nan_false, Hx.
Qed.

Lemma float_leb_total (x y : float) :
  is_nan x = false -> is_nan y = false ->
  (y <=? x)%float = false -> (x <=? y)%float = true.
Proof.
  intros Hx Hy. rewrite !leb_spec.
  apply SFleb_total; apply is_nan_false; assumption.
Qed.

Lemma float_leb_trans (x y z : float) :
  (x <=? y)%float = true -> (y <=? z)%float = true -> (x <=? z)%float = true.
Proof. rewrite !leb_spec. apply SFleb_trans. Qed.

Lemma float_mul_comm (x y : float) : (x * y)%float = (y * x)%float.
Proof. apply Prim2SF_inj. rewrite !mul_spec. apply SFmul_comm. Qed.

(** ** The numpy operations *)

Lemma np_broadcast_same {A B} (f : A -> A -> B) (a b : list A) :
  length a = length b -> np_broadcast f a b = Ok (zip_with f a b).
Proof.
  intros Hlen. unfold np_broadcast. rewrite Hlen, Nat.eqb_refl. reflexivity.
Qed.

Lemma fmap_zip_with_both {A B C D} (g : C -> D) (f : A -> B -> C)
    (a : list A) (b : list B) :
  g <$> zip_with f a b = zip_with (fun x y => g (f x y)) a b.
Proof.
  revert b. induction a as [|x a IH]; intros [|y b]; cbn; [done..|].
  f_equal. apply IH.
Qed.

Lemma np_maximum_is_max (acc b : float) (seen : list float) :
  is_max_of acc seen -> is_max_of (np_maximum acc b) (seen ++ [b]).
Proof.
  intros [Hin Hmax]. unfold np_maximum.
  destruct (b <=? acc)%float eqn:Hb; cbn [orb].
  - split; [apply elem_of_app; by left|].
    destruct Hmax as [Hnan|Hmax]; [by left|right].
    intros x [Hx|Hx%list_elem_of_singleton]%elem_of_app; [by apply Hmax|].
    by subst x.
  - destruct (is_nan acc) eqn:Hacc.
    + split; [apply elem_of_app; by left | by left].
    + split; [apply elem_of_app; right; by apply list_elem_of_singleton|].
      destruct Hmax as [Hnan|Hmax]; [congruence|].
      destruct (is_nan b) eqn:Hnb; [by left|right].
      assert (Hab : (acc <=? b)%float = true) by by apply float_leb_total.
      intros x [Hx|Hx%list_elem_of_singleton]%elem_of_app.
      * apply (float_leb_trans x acc b); [by apply Hmax | exact Hab].
      * subst x. by apply float_leb_refl.
Qed.

Lemma foldl_np_maximum_is_max (xs seen : list float) (acc : float) :
  is_max_of acc seen -> is_max_of (foldl np_maximum acc xs) (seen ++ xs).
Proof.
  revert seen acc. induction xs as [|b xs IH]; intros seen acc Hacc; cbn [foldl].
  - by rewrite app_nil_r.
  - rewrite cons_middle, app_assoc. apply IH, np_maximum_is_max, Hacc.
Qed.

(** On an array that is not empty, [np.max] returns its maximum. *)
Lemma np_max_is_max (a : list float) :
  0 < length a -> exists m, np_max a = Ok m /\ is_max_of m a.
Proof.
  destruct a as [|x xs]; cbn [length]; [lia|]. intros _.
  exists (foldl np_maximum x xs). split; [reflexivity|].
  apply (foldl_np_maximum_is_max xs [x] x). split.
  - by apply list_elem_of_singleton.
  - destruct (is_nan x) eqn:Hx; [by left|right].
    intros y ->%list_elem_of_singleton. by apply float_leb_refl.
Qed.

Lemma index_last_ok {A} (a : list A) :
  0 < length a ->
  exists x, index_last a = Ok x /\ a !! (length a - 1) = Some x.
Proof.
  intros Hlen. unfold index_last. rewrite last_lookup.
  replace (pred (length a)) with (length a - 1) by lia.
  destruct (lookup_lt_is_Some_2 a (length a - 1)) as [x Hx]; [lia|].
  exists x. rewrite Hx. done.
Qed.

(** The entries of [within_tolerance], index by index. *)
Lemma within_tolerance_lookup (position_y reference_y : list float) (t : nat) :
  zip_with PrimFloat.ltb (np_abs (zip_with PrimFloat.sub position_y reference_y))
    (PrimFloat.mul 0.02 <$> np_abs reference_y) !! t
  = spec_within position_y reference_y t.
Proof.
  unfold spec_within, np_abs.
  rewrite lookup_zip_with, !list_lookup_fmap, lookup_zip_with.
  destruct (position_y !! t), (reference_y !! t); reflexivity.
Qed.

(** The scan of [next] over [range(n, 0, -1)]: it stops at the first index,
    from [n] down, whose entry is false, and falls back on the default when
    there is none down to 1. *)
Lemma next_not_within_scan (within : list bool) (default : Z) (n : nat) :
  (forall i, 1 <= i <= n -> is_Some (within !! i)) ->
  (next_not_within within (reverse (seq 1 n)) default = Ok default
   /\ forall i, 1 <= i <= n -> within !! i = Some true)
  \/ (exists i, 1 <= i <= n
       /\ next_not_within within (reverse (seq 1 n)) default = Ok (Z.of_nat i)
       /\ within !! i = Some false
       /\ forall j, i < j <= n -> within !! j = Some true).
Proof.
  induction n as [|n IH]; intros Hsome.
  - left. split; [reflexivity | intros i Hi; lia].
  - rewrite seq_S, reverse_snoc. cbn [next_not_within]. unfold index.
    destruct (Hsome (1 + n)) as [w Hw]; [lia|]. rewrite Hw.
    destruct w; cbn [negb].
    + destruct IH as [[Hnext Hall]|(i & Hi & Hnext & Hfalse & Hall)].
      * intros i Hi. apply Hsome. lia.
      * left. split; [exact Hnext|]. intros i Hi.
        destruct (decide (i = 1 + n)) as [->|]; [exact Hw | apply Hall; lia].
      * right. exists i. split; [lia|]. split; [exact Hnext|].
        split; [exact Hfalse|]. intros j Hj.
        destruct (decide (j = 1 + n)) as [->|]; [exact Hw | apply Hall; lia].
    + right. exists (1 + n). split; [lia|]. split; [reflexivity|].
      split; [exact Hw|]. intros j Hj. lia.
Qed.

(** The settling time of the code, on a trajectory and a reference of the
    same length: one more than the first index, from T-1 down to 1, that is
    out of tolerance, and T when there is none. *)
Lemma settling_time_scan (position_y reference_y : list float) :
  length position_y = length reference_y ->
  let T := length reference_y in
  exists i : Z,
    settling_time position_y reference_y = Ok (i + 1)%Z
    /\ ((i = (Z.of_nat T - 1)%Z
         /\ forall j, 1 <= j < T -> spec_within position_y reference_y j = Some true)
        \/ (exists n, i = Z.of_nat n /\ 1 <= n < T
             /\ spec_within position_y reference_y n = Some false
             /\ forall j, n < j < T ->
                  spec_within position_y reference_y j = Some true)).
Proof.
  intros Hlen T. unfold settling_time.
  rewrite (np_broadcast_same _ _ _ Hlen). cbn [rbind].
  rewrite np_broadcast_same
    by (unfold np_abs; rewrite !length_fmap, length_zip_with; lia).
  cbn [rbind]. unfold range_down. fold T.
  set (within := zip_with PrimFloat.ltb _ _).
  assert (Hwithin : forall t, within !! t = spec_within position_y reference_y t)
    by apply within_tolerance_lookup.
  destruct (next_not_within_scan within (Z.of_nat T - 1)%Z (T - 1))
    as [[Hnext Hall]|(n & Hn & Hnext & Hfalse & Hall)].
  - intros i Hi. apply lookup_lt_is_Some_2. unfold within, np_abs.
    rewrite length_zip_with, !length_fmap, length_zip_with. lia.
  - exists (Z.of_nat T - 1)%Z. rewrite Hnext. split; [reflexivity|].
    left. split; [reflexivity|]. intros j Hj. rewrite <- Hwithin. apply Hall. lia.
  - exists (Z.of_nat n). rewrite Hnext. split; [reflexivity|].
    right. exists n. split; [reflexivity|]. split; [lia|].
    split; [by rewrite <- Hwithin|].
    intros j Hj. rewrite <- Hwithin. apply Hall. lia.
Qed.

(** ** [calculate_performance_metrics] *)

(** On a trajectory and a reference of the same length, at least 1,
    [calculate_performance_metrics] raises nothing, and its three numbers are
    these. *)
Lemma calculate_performance_metrics_ok (self : ClosedLoop.t)
    (trajectory : Trajectory) (mission : Mission) :
  let position_y := column_y trajectory in
  let reference_y := reference mission in
  length position_y = length reference_y ->
  0 < length reference_y ->
  exists (max_deviation max_reference last_position last_reference : float)
         (steps : Z),
    np_max (zip_with (fun p r => abs (p - r)%float) position_y reference_y)
    = Ok max_deviation
    /\ np_max (abs <$> reference_y) = Ok max_reference
    /\ index_last position_y = Ok last_position
    /\ index_last reference_y = Ok last_reference
    /\ settling_time position_y reference_y = Ok steps
    /\ calculate_performance_metrics self trajectory mission
       = Ok {| overshoot := (max_deviation / max_reference * 100)%float;
               steady_state_error := abs (last_position - last_reference);
               settling_time_seconds :=
                 (steps * Submarine.dt (ClosedLoop.plant self))%Z |}.
Proof.
  intros position_y reference_y Hlen HT.
  destruct (np_max_is_max
              (zip_with (fun p r => abs (p - r)%float) position_y reference_y))
    as (max_deviation & Hdev & _); [rewrite length_zip_with; lia|].
  destruct (np_max_is_max (abs <$> reference_y))
    as (max_reference & Href & _); [rewrite length_fmap; lia|].
  destruct (index_last_ok position_y) as (last_position & Hlp & _); [lia|].
  destruct (index_last_ok reference_y) as (last_reference & Hlr & _); [lia|].
  destruct (settling_time_scan position_y reference_y Hlen) as (i & Hst & _).
  exists max_deviation, max_reference, last_position, last_reference, (i + 1)%Z.
  repeat (split; [assumption|]).
  unfold calculate_performance_metrics.
  fold position_y. fold reference_y.
  rewrite (np_broadcast_same _ _ _ Hlen). cbn [rbind].
  unfold np_abs. rewrite fmap_zip_with_both, Hdev. cbn [rbind].
  rewrite Href. cbn [rbind]. rewrite Hlp. cbn [rbind]. rewrite Hlr. cbn [rbind].
  rewrite Hst. reflexivity.
Qed.

(** On an empty trajectory and an empty reference, [np.max] raises. *)
Lemma calculate_performance_metrics_empty (self : ClosedLoop.t)
    (mission : Mission) :
  reference mission = [] ->
  calculate_performance_metrics self (mkTrajectory []) mission = Raise ValueError.
Proof.
  intros Href. unfold calculate_performance_metrics. rewrite Href. reflexivity.
Qed.

(** C7: for a trajectory and a mission of the same horizon T (at least 1,
    for [position_y[T-1]] to be there), the overshoot computed is 100 times
    the quotient of the maximum over t of [|position_y[t] - reference[t]|]
    by the maximum over t of [|reference[t]|], and the steady-state error is
    [|position_y[T-1] - reference[T-1]|]. *)
Theorem metrics_overshoot_steady_state (self : ClosedLoop.t)
    (trajectory : Trajectory) (mission : Mission) :
  let position_y := column_y trajectory in
  let reference_y := reference mission in
  let T := length reference_y in
  length position_y = T ->
  0 < T ->
  exists (metrics : Metrics)
         (max_deviation max_reference last_position last_reference : float),
    calculate_performance_metrics self trajectory mission = Ok metrics
    /\ is_max_of max_deviation
         (zip_with (fun p r => abs (p - r)%float) position_y reference_y)
    /\ is_max_of max_reference (abs <$> reference_y)
    /\ overshoot metrics = (100 * (max_deviation / max_reference))%float
    /\ position_y !! (T - 1) = Some last_position
    /\ reference_y !! (T - 1) = Some last_reference
    /\ steady_state_error metrics = abs (last_position - last_reference).
Proof.
  intros position_y reference_y T Hlen HT.
  destruct (calculate_performance_metrics_ok self trajectory mission Hlen HT)
    as (max_deviation & max_reference & last_position & last_reference & steps
        & Hdev & Href & Hlp & Hlr & _ & Hrun).
  fold position_y in Hdev, Hlp. fold reference_y in Hdev, Href, Hlr.
  eexists. exists max_deviation, max_reference, last_position, last_reference.
  split; [exact Hrun|]. cbn [overshoot steady_state_error].
  destruct (np_max_is_max
              (zip_with (fun p r => abs (p - r)%float) position_y reference_y))
    as (m & Hm & Hmax); [rewrite length_zip_with; lia|].
  destruct (np_max_is_max (abs <$> reference_y)) as (m' & Hm' & Hmax');
    [rewrite length_fmap; lia|].
  destruct (index_last_ok position_y) as (p & Hp & Hpl); [lia|].
  destruct (index_last_ok reference_y) as (r & Hr & Hrl); [lia|].
  assert (m = max_deviation) as -> by congruence.
  assert (m' = max_reference) as -> by congruence.
  assert (p = last_position) as -> by congruence.
  assert (r = last_reference) as -> by congruence.
  rewrite Hlen in Hpl.
  split; [exact Hmax|]. split; [exact Hmax'|].
  split; [apply float_mul_comm|].
  split; [exact Hpl|]. split; [exact Hrl | reflexivity].
Qed.

Lemma metrics_overshoot_steady_state_witness :
  exists metrics : Metrics,
    calculate_performance_metrics Examples.driver Examples.dip
      Examples.unit_mission = Ok metrics
    /\ overshoot metrics = 100%float
    /\ steady_state_error metrics = 0%float.
Proof.
  destruct (metrics_overshoot_steady_state Examples.driver Examples.dip
              Examples.unit_mission)
    as (metrics & _ & _ & _ & _ & Hrun & _).
  - reflexivity.
  - cbn. lia.
  - exists metrics. split; [exact Hrun|].
    vm_compute in Hrun.
    apply (f_equal (fun r => match r with
                             | Ok m => Some m
                             | Raise _ => None
                             end)) in Hrun.
    cbn in Hrun. inversion Hrun. split; reflexivity.
Defined.

(** C1, as the code has it: with
    [within[t] = (|position_y[t] - reference[t]| < 0.02 * |reference[t]|)],
    the scan runs from [t = T-1] down to [t = 1]; the settling index is the
    first index of the scan where [within] is false, and [T-1] when there is
    none; and the settling time reported is [(settling_index + 1) * dt]. *)
Theorem settling_time_backward_scan (self : ClosedLoop.t)
    (trajectory : Trajectory) (mission : Mission) :
  let position_y := column_y trajectory in
  let reference_y := reference mission in
  let T := length reference_y in
  length position_y = T ->
  0 < T ->
  exists (metrics : Metrics) (settling_index : nat),
    calculate_performance_metrics self trajectory mission = Ok metrics
    /\ settling_time_seconds metrics
       = ((Z.of_nat settling_index + 1) * Submarine.dt (ClosedLoop.plant self))%Z
    /\ (forall j, settling_index < j < T ->
          spec_within position_y reference_y j = Some true)
    /\ ((1 <= settling_index < T
         /\ spec_within position_y reference_y settling_index = Some false)
        \/ (settling_index = T - 1
            /\ forall j, 1 <= j < T ->
                 spec_within position_y reference_y j = Some true)).
Proof.
  intros position_y reference_y T Hlen HT.
  destruct (calculate_performance_metrics_ok self trajectory mission Hlen HT)
    as (max_deviation & max_reference & last_position & last_reference & steps
        & _ & _ & _ & _ & Hsteps & Hrun).
  fold position_y in Hsteps. fold reference_y in Hsteps.
  destruct (settling_time_scan position_y reference_y Hlen)
    as (i & Hst & [[-> Hall]|(n & -> & Hn & Hfalse & Hall)]).
  - eexists. exists (T - 1). split; [exact Hrun|]. cbn [settling_time_seconds].
    split; [|split].
    + assert (steps = (Z.of_nat (length reference_y) - 1 + 1)%Z) as ->
        by congruence.
      f_equal. unfold T. lia.
    + intros j Hj. lia.
    + right. split; [reflexivity | exact Hall].
  - eexists. exists n. split; [exact Hrun|]. cbn [settling_time_seconds].
    split; [|split].
    + assert (steps = (Z.of_nat n + 1)%Z) as -> by congruence. reflexivity.
    + exact Hall.
    + left. split; [exact Hn | exact Hfalse].
Qed.

Lemma settling_time_backward_scan_witness :
  exists metrics : Metrics,
    calculate_performance_metrics Examples.driver Examples.dip
      Examples.unit_mission = Ok metrics
    /\ exists settling_index : nat,
         settling_time_seconds metrics = (Z.of_nat settling_index + 1)%Z
         /\ spec_within (column_y Examples.dip)
              (reference Examples.unit_mission) settling_index = Some false.
Proof.
  destruct (settling_time_backward_scan Examples.driver Examples.dip
              Examples.unit_mission)
    as (metrics & settling_index & Hrun & Htime & _ & [[_ Hfalse]|[Hlast Hall]]).
  - reflexivity.
  - cbn. lia.
  - exists metrics. split; [exact Hrun|]. exists settling_index.
    split; [|exact Hfalse]. rewrite Htime. cbn. lia.
  - exfalso. specialize (Hall 1%nat). cbn in Hall.
    assert (Some false = Some true) as E by (apply Hall; lia).
    discriminate E.
Defined.

(** C1, as the specification words it, fails.  On the reference [1, 1, 1]
    and the depths [1, 0, 1], where only index 1 is out of tolerance, the
    code reports 2 seconds at [dt = 1] (index 1, plus 1), while the rule of
    the specification, which adds 1 to the index and 1 again to the settling
    index, gives 3.  On the reference [1, 1, 1, 1] and the depths
    [1, 0, 1, 0] the code reports 4 seconds, for the index 3 = T-1 where its
    scan starts, while the rule of the specification, scanning from T-2,
    gives 3. *)
Lemma settling_time_differs_from_spec_rule :
  (exists metrics : Metrics,
     calculate_performance_metrics Examples.driver Examples.dip
       Examples.unit_mission = Ok metrics
     /\ settling_time_seconds metrics = 2%Z
     /\ spec_settling_time_seconds
          (Submarine.dt (ClosedLoop.plant Examples.driver))
          (column_y Examples.dip) (reference Examples.unit_mission) = 3%Z)
  /\ (exists metrics : Metrics,
        calculate_performance_metrics Examples.driver Examples.late_dip
          Examples.long_mission = Ok metrics
        /\ settling_time_seconds metrics = 4%Z
        /\ spec_settling_time_seconds
             (Submarine.dt (ClosedLoop.plant Examples.driver))
             (column_y Examples.late_dip) (reference Examples.long_mission)
           = 3%Z).
Proof.
  split.
  - eexists. split; [vm_compute; reflexivity|].
    split; [reflexivity | vm_compute; reflexivity].
  - eexists. split; [vm_compute; reflexivity|].
    split; [reflexivity | vm_compute; reflexivity].
Qed.

(** * Further properties *)

(** ** The vehicle *)

Lemma reset_state_transition (action disturbance : float) (s : Submarine.t) :
  Submarine.reset_state (Submarine.transition action disturbance s)
  = Submarine.reset_state s.
Proof. destruct s. reflexivity. Qed.

(** X1: [reset_state] erases what any sequence of transitions did: the
    reset vehicle is the same as if they had not run.  It sets the position
    to (0, 0) and the velocity to (1, 0), and leaves the constants [mass],
    [drag], [actuator_gain] and [dt] as they are, so that it gives back
    [Submarine()] when they are the default ones. *)
Theorem reset_state_after_transitions (calls : list (float * float))
    (s : Submarine.t) :
  Submarine.reset_state (transitions calls s) = Submarine.reset_state s
  /\ Submarine.get_position (Submarine.reset_state s) = (0%Z, 0%float)
  /\ Submarine.vel_x (Submarine.reset_state s) = 1%Z
  /\ Submarine.vel_y (Submarine.reset_state s) = 0%float
  /\ same_constants s (Submarine.reset_state s)
  /\ (default_constants s -> Submarine.reset_state s = Submarine.init).
Proof.
  split; [|split; [|split; [|split; [|split]]]].
  - revert s. induction calls as [|call calls IH]; intros s; [reflexivity|].
    unfold transitions in *. cbn [foldl]. rewrite IH.
    apply reset_state_transition.
  - reflexivity.
  - reflexivity.
  - reflexivity.
  - destruct s. repeat split.
  - destruct s. unfold default_constants, same_constants. cbn.
    intros (-> & -> & -> & ->). reflexivity.
Qed.

(** ** The driver *)

Lemma step_constants (self : ClosedLoop.t) (rd : float * float) :
  same_constants (ClosedLoop.plant self) (ClosedLoop.plant (Loop.step self rd))
  /\ PDController.kp (ClosedLoop.controller (Loop.step self rd))
     = PDController.kp (ClosedLoop.controller self)
  /\ PDController.kd (ClosedLoop.controller (Loop.step self rd))
     = PDController.kd (ClosedLoop.controller self).
Proof. destruct self as [[] []]. cbn. repeat split. Qed.

Lemma foldl_step_constants (rds : list (float * float)) (self : ClosedLoop.t) :
  same_constants (ClosedLoop.plant self)
    (ClosedLoop.plant (foldl Loop.step self rds))
  /\ PDController.kp (ClosedLoop.controller (foldl Loop.step self rds))
     = PDController.kp (ClosedLoop.controller self)
  /\ PDController.kd (ClosedLoop.controller (foldl Loop.step self rds))
     = PDController.kd (ClosedLoop.controller self)
  /\ Submarine.vel_x (ClosedLoop.plant (foldl Loop.step self rds))
     = Submarine.vel_x (ClosedLoop.plant self).
Proof.
  revert self. induction rds as [|rd rds IH]; intros self; cbn [foldl].
  - unfold same_constants. repeat split.
  - destruct (IH (Loop.step self rd)) as ((Hm & Hd & Hg & Ht) & Hkp & Hkd & Hv).
    destruct (step_constants self rd) as ((Hm' & Hd' & Hg' & Ht') & Hkp' & Hkd').
    destruct (step_keeps self rd) as (Hv' & _).
    unfold same_constants. repeat split; congruence.
Qed.

(** X2: whatever its inputs and its outcome, [simulate] leaves the
    constants of the vehicle ([mass], [drag], [actuator_gain], [dt]) and the
    gains of the controller ([kp], [kd]) as they were. *)
Theorem simulate_keeps_constants (mission : Mission) (disturbances : list float)
    (self : ClosedLoop.t) :
  let self' := (ClosedLoop.simulate mission disturbances self).2 in
  same_constants (ClosedLoop.plant self) (ClosedLoop.plant self')
  /\ PDController.kp (ClosedLoop.controller self')
     = PDController.kp (ClosedLoop.controller self)
  /\ PDController.kd (ClosedLoop.controller self')
     = PDController.kd (ClosedLoop.controller self).
Proof.
  destruct (Nat.lt_ge_cases (length disturbances) (length (reference mission)))
    as [Hlt|Hge].
  - rewrite (simulate_raises _ _ _ Hlt). cbn [snd].
    unfold same_constants. repeat split.
  - rewrite (simulate_ok _ _ _ Hge). cbn [snd]. rewrite run_final.
    destruct (foldl_step_constants (zip (reference mission) disturbances)
                (Loop.reset self)) as ((Hm & Hd & Hg & Ht) & Hkp & Hkd & _).
    destruct self as [[] []]. cbn in *. unfold same_constants. cbn.
    repeat split; assumption.
Qed.

(** X3: the position and the velocity that the vehicle has before the call
    play no part: from two drivers with the same controller and the same
    vehicle constants, [simulate] returns the same trajectory and leaves the
    same driver. *)
Theorem simulate_forgets_vehicle_state (mission : Mission)
    (disturbances : list float) (self other : ClosedLoop.t) :
  ClosedLoop.controller other = ClosedLoop.controller self ->
  same_constants (ClosedLoop.plant self) (ClosedLoop.plant other) ->
  length (reference mission) <= length disturbances ->
  ClosedLoop.simulate mission disturbances other
  = ClosedLoop.simulate mission disturbances self.
Proof.
  intros Hc (Hm & Hd & Hg & Ht) Hlen.
  rewrite !simulate_ok by assumption.
  assert (Hreset : Loop.reset other = Loop.reset self).
  { destruct self as [[] ?], other as [[] ?]. cbn in *. subst. reflexivity. }
  rewrite Hreset. reflexivity.
Qed.

Lemma simulate_forgets_vehicle_state_witness :
  ClosedLoop.simulate Examples.unit_mission Examples.calm
    (ClosedLoop.init
       (Submarine.transition 3 4 Submarine.init) PDController.default)
  = ClosedLoop.simulate Examples.unit_mission Examples.calm Examples.driver.
Proof.
  apply simulate_forgets_vehicle_state.
  - reflexivity.
  - unfold same_constants. cbn. repeat split.
  - cbn. lia.
Defined.




(** After steps that are not none, the controller holds the reference of
    the last step minus the depth of the last row. *)
Lemma run_last_error (rds : list (float * float)) (self : ClosedLoop.t)
    (r d : float) :
  rds !! (length rds - 1) = Some (r, d) ->
  exists y : float,
    (Loop.run self rds).1.*2 !! (length rds - 1) = Some y
    /\ PDController.previous_error (ClosedLoop.controller (Loop.run self rds).2)
       = (r - y)%float.
Proof.
  intros Hrd.
  assert (Hn : 1 <= length rds) by (apply lookup_lt_Some in Hrd; lia).
  exists (Submarine.pos_y
            (ClosedLoop.plant (Loop.before_step self rds (length rds - 1)))).
  split.
  - rewrite list_lookup_fmap, run_lookup by lia. reflexivity.
  - assert (Hfinal : foldl Loop.step self rds
                     = Loop.step (Loop.before_step self rds (length rds - 1))
                         (r, d)).
    { rewrite <- (take_ge rds (length rds)) at 1 by lia.
      replace (length rds) with (S (length rds - 1)) at 1 by lia.
      rewrite (take_S_r _ _ _ Hrd), foldl_app. reflexivity. }
    rewrite run_final, Hfinal.
    destruct (Loop.before_step self rds (length rds - 1)) as [[] []].
    reflexivity.
Qed.

(** X5: after a call of [simulate] on a mission of horizon T >= 1, the
    controller holds the error of the last step,
    [previous_error = reference[T-1] - position_y[T-1]]: this is what the
    next call starts from. *)
Theorem simulate_last_error (mission : Mission) (disturbances : list float)
    (self : ClosedLoop.t) :
  let T := length (reference mission) in
  1 <= T ->
  T <= length disturbances ->
  exists (trajectory : Trajectory) (self' : ClosedLoop.t) (r y : float),
    ClosedLoop.simulate mission disturbances self = (Ok trajectory, self')
    /\ reference mission !! (T - 1) = Some r
    /\ column_y trajectory !! (T - 1) = Some y
    /\ PDController.previous_error (ClosedLoop.controller self') = (r - y)%float.
Proof.
  intros T HT Hlen.
  rewrite (simulate_ok _ _ _ Hlen).
  set (rds := zip (reference mission) disturbances).
  assert (Hrds : length rds = T).
  { unfold rds. rewrite length_zip_with. unfold T. lia. }
  destruct (lookup_lt_is_Some_2 rds (T - 1)) as [rd Hrd]; [lia|].
  pose proof Hrd as Hzip.
  apply lookup_zip_with_Some in Hzip as (r & d & -> & Hr & Hd).
  rewrite <- Hrds in Hrd.
  destruct (run_last_error rds (Loop.reset self) r d Hrd) as (y & Hy & Herror).
  rewrite Hrds in Hy.
  eexists. eexists. exists r, y.
  split; [reflexivity|]. split; [exact Hr|]. split; [exact Hy | exact Herror].
Qed.

Lemma simulate_last_error_witness :
  exists (trajectory : Trajectory) (self' : ClosedLoop.t),
    ClosedLoop.simulate Examples.unit_mission Examples.calm Examples.driver
    = (Ok trajectory, self')
    /\ PDController.previous_error (ClosedLoop.controller self') = 0.25%float.
Proof.
  destruct (simulate_last_error Examples.unit_mission Examples.calm
              Examples.driver)
    as (trajectory & self' & r & y & Hrun & Hr & Hy & Herror).
  - cbn. lia.
  - cbn. lia.
  - exists trajectory, self'. split; [exact Hrun|].
    vm_compute in Hrun.
    apply (f_equal (fun out => PDController.previous_error
                                 (ClosedLoop.controller out.2))) in Hrun.
    cbn in Hrun. symmetry. exact Hrun.
Defined.

(** X6: the loop is causal: row [t] of the trajectory depends on the
    references and the disturbances of the steps before [t] only.  On two
    missions and two disturbance sequences that agree on the indices below
    [t], and from the same driver, the rows [t] are the same. *)
Theorem simulate_causal (mission mission' : Mission)
    (disturbances disturbances' : list float) (self : ClosedLoop.t) (t : nat) :
  length (reference mission) <= length disturbances ->
  length (reference mission') <= length disturbances' ->
  t < length (reference mission) ->
  t < length (reference mission') ->
  (forall i, i < t ->
     reference mission !! i = reference mission' !! i
     /\ disturbances !! i = disturbances' !! i) ->
  exists (trajectory trajectory' : Trajectory) (row : float * float),
    (ClosedLoop.simulate mission disturbances self).1 = Ok trajectory
    /\ (ClosedLoop.simulate mission' disturbances' self).1 = Ok trajectory'
    /\ position trajectory !! t = Some row
    /\ position trajectory' !! t = Some row.
Proof.
  intros Hlen Hlen' Ht Ht' Hagree.
  rewrite !simulate_ok by assumption. cbn [fst].
  eexists. eexists. eexists.
  split; [reflexivity|]. split; [reflexivity|]. cbn [position].
  rewrite !run_lookup by (rewrite length_zip_with; lia).
  split; [reflexivity|].
  do 2 f_equal. unfold Loop.before_step. f_equal.
  rewrite !zip_with_take. f_equal.
  - apply list_eq. intros i. destruct (Nat.lt_ge_cases i t) as [Hi|Hi].
    + rewrite !lookup_take_lt by assumption. symmetry. apply Hagree, Hi.
    + rewrite !lookup_take_ge by assumption. reflexivity.
  - apply list_eq. intros i. destruct (Nat.lt_ge_cases i t) as [Hi|Hi].
    + rewrite !lookup_take_lt by assumption. symmetry. apply Hagree, Hi.
    + rewrite !lookup_take_ge by assumption. reflexivity.
Qed.

Lemma simulate_causal_witness :
  exists (trajectory trajectory' : Trajectory) (row : float * float),
    (ClosedLoop.simulate Examples.unit_mission Examples.calm Examples.driver).1
    = Ok trajectory
    /\ (ClosedLoop.simulate Examples.long_mission [0; 0; 5; 6]%float
          Examples.driver).1 = Ok trajectory'
    /\ position trajectory !! 2%nat = Some row
    /\ position trajectory' !! 2%nat = Some row.
Proof.
  apply (simulate_causal Examples.unit_mission Examples.long_mission
           Examples.calm [0; 0; 5; 6]%float Examples.driver 2).
  - cbn. lia.
  - cbn. lia.
  - cbn. lia.
  - cbn. lia.
  - intros [|[|i]] Hi; [split; reflexivity..|lia].
Defined.

(** X7: the first action and the first disturbance do not show in the first
    two rows.  At the time step [dt = 1] and on a mission of horizon
    T >= 2, row 0 is (0, 0) and row 1 is (1, 0), whatever the reference, the
    disturbances, the gains and the state of the driver: the velocity
    gained in step 0 moves the vehicle in the transition of step 1 only. *)
Theorem simulate_first_rows (mission : Mission) (disturbances : list float)
    (self : ClosedLoop.t) :
  Submarine.dt (ClosedLoop.plant self) = 1%Z ->
  2 <= length (reference mission) ->
  length (reference mission) <= length disturbances ->
  exists trajectory : Trajectory,
    (ClosedLoop.simulate mission disturbances self).1 = Ok trajectory
    /\ position trajectory !! 0%nat = Some (0%float, 0%float)
    /\ position trajectory !! 1%nat = Some (1%float, 0%float).
Proof.
  intros Hdt HT Hlen.
  rewrite (simulate_ok _ _ _ Hlen). cbn [fst].
  eexists. split; [reflexivity|]. cbn [position].
  assert (Hrds : length (zip (reference mission) disturbances)
                 = length (reference mission)).
  { rewrite length_zip_with. lia. }
  rewrite !run_lookup by lia.
  destruct (zip (reference mission) disturbances) as [|rd rds];
    [cbn in Hrds; lia|].
  split; [reflexivity|].
  unfold Loop.before_step. cbn [take foldl].
  destruct self as [[m dr g dt px py vx vy] [kp kd pe]]. cbn in Hdt. subst dt.
  reflexivity.
Qed.

Lemma simulate_first_rows_witness :
  exists trajectory : Trajectory,
    (ClosedLoop.simulate Examples.flat_mission Examples.kick Examples.driver).1
    = Ok trajectory
    /\ position trajectory !! 1%nat = Some (1%float, 0%float).
Proof.
  destruct (simulate_first_rows Examples.flat_mission Examples.kick
              Examples.driver) as (trajectory & Hrun & _ & Hrow).
  - reflexivity.
  - cbn. lia.
  - cbn. lia.
  - exists trajectory. split; [exact Hrun | exact Hrow].
Defined.

(** The default driver at rest at [pos_x = k] stays at rest over a step of
    reference 0 and disturbance 0, and advances by 1. *)
Lemma step_at_rest (k : Z) :
  Loop.step
    (ClosedLoop.mk (Submarine.set_pos_x k Submarine.init) PDController.default)
    (0%float, 0%float)
  = ClosedLoop.mk (Submarine.set_pos_x (k + 1) Submarine.init)
      PDController.default.
Proof. reflexivity. Qed.

Lemma run_at_rest (n : nat) (k : Z) :
  Loop.run
    (ClosedLoop.mk (Submarine.set_pos_x k Submarine.init) PDController.default)
    (replicate n (0%float, 0%float))
  = ((fun t : nat => (of_int (k + Z.of_nat t), 0%float)) <$> seq 0 n,
     ClosedLoop.mk (Submarine.set_pos_x (k + Z.of_nat n) Submarine.init)
       PDController.default).
Proof.
  revert k. induction n as [|n IH]; intros k.
  - cbn [replicate Loop.run seq fmap list_fmap]. do 3 f_equal. lia.
  - rewrite replicate_S, run_cons, step_at_rest, IH.
    cbn [fst snd seq fmap list_fmap]. f_equal.
    + f_equal.
      * unfold Loop.recorded. cbn. do 2 f_equal. lia.
      * rewrite <- fmap_S_seq, <- list_fmap_compose.
        apply list_fmap_ext. intros _ t _. unfold compose. do 2 f_equal. lia.
    + replace (k + 1 + Z.of_nat n)%Z with (k + Z.of_nat (S n))%Z by lia.
      reflexivity.
Qed.

(** X8: the rest is an equilibrium.  With the default vehicle constants and
    a controller of default gains whose [previous_error] is 0, on a
    reference of T zeros and disturbances that are 0 over the first T
    steps, every depth of the trajectory is 0, whatever T; the controller is
    left with [previous_error = 0], so that calling [simulate] again returns
    the same trajectory and leaves the same driver. *)
Theorem simulate_at_rest (mission : Mission) (disturbances : list float)
    (self : ClosedLoop.t) :
  let T := length (reference mission) in
  default_constants (ClosedLoop.plant self) ->
  ClosedLoop.controller self = PDController.default ->
  reference mission = replicate T 0%float ->
  take T disturbances = replicate T 0%float ->
  exists (trajectory : Trajectory) (self' : ClosedLoop.t),
    ClosedLoop.simulate mission disturbances self = (Ok trajectory, self')
    /\ column_y trajectory = replicate T 0%float
    /\ ClosedLoop.controller self' = PDController.default
    /\ ClosedLoop.simulate mission disturbances self' = (Ok trajectory, self').
Proof.
  intros T Hconstants Hcontroller Hreference Hdisturbances.
  assert (Hlen : T <= length disturbances).
  { apply (f_equal length) in Hdisturbances.
    rewrite length_take, length_replicate in Hdisturbances. lia. }
  assert (Hzip : zip (reference mission) disturbances
                 = replicate T (0%float, 0%float)).
  { rewrite <- zip_with_take_r. fold T. rewrite Hdisturbances, Hreference.
    apply zip_with_replicate. }
  assert (Hreset : forall s : ClosedLoop.t,
             default_constants (ClosedLoop.plant s) ->
             ClosedLoop.controller s = PDController.default ->
             Loop.reset s
             = ClosedLoop.mk (Submarine.set_pos_x 0 Submarine.init)
                 PDController.default).
  { intros [[] c] (Hm & Hd & Hg & Ht) Hc. cbn in *. subst. reflexivity. }
  exists (mkTrajectory
            ((fun t : nat => (of_int (0 + Z.of_nat t), 0%float)) <$> seq 0 T)),
    (ClosedLoop.mk (Submarine.set_pos_x (0 + Z.of_nat T) Submarine.init)
       PDController.default).
  split; [|split; [|split]].
  - rewrite (simulate_ok _ _ _ Hlen), Hzip, (Hreset self) by assumption.
    rewrite run_at_rest. reflexivity.
  - unfold column_y. cbn [position].
    rewrite <- list_fmap_compose.
    apply list_eq. intros i. rewrite list_lookup_fmap.
    destruct (Nat.lt_ge_cases i T) as [Hi|Hi].
    + rewrite lookup_seq_lt, lookup_replicate_2 by assumption. reflexivity.
    + rewrite lookup_seq_ge by assumption.
      symmetry. apply lookup_replicate_None. exact Hi.
  - reflexivity.
  - rewrite (simulate_ok _ _ _ Hlen), Hzip, Hreset.
    + rewrite run_at_rest. reflexivity.
    + unfold default_constants, same_constants. cbn. repeat split.
    + reflexivity.
Qed.

Lemma simulate_at_rest_witness :
  exists (trajectory : Trajectory) (self' : ClosedLoop.t),
    ClosedLoop.simulate Examples.flat_mission [0; 0; 0; 0; 0; 9]%float
      Examples.driver = (Ok trajectory, self')
    /\ column_y trajectory = [0; 0; 0; 0; 0]%float.
Proof.
  destruct (simulate_at_rest Examples.flat_mission [0; 0; 0; 0; 0; 9]%float
              Examples.driver) as (trajectory & self' & Hrun & Hy & _).
  - unfold default_constants, same_constants. cbn. repeat split.
  - reflexivity.
  - reflexivity.
  - reflexivity.
  - exists trajectory, self'. split; [exact Hrun | exact Hy].
Defined.

(** ** The shapes that the metrics accept *)

Lemma np_broadcast_ok {A B} (f : A -> A -> B) (a b : list A) :
  length a = length b \/ length a = 1 \/ length b = 1 ->
  exists l, np_broadcast f a b = Ok l
            /\ length l = if (length a =? 1)%nat then length b else length a.
Proof.
  intros Hshape. unfold np_broadcast.
  destruct (Nat.eqb_spec (length a) (length b)) as [Hab|Hab].
  - eexists. split; [reflexivity|]. rewrite length_zip_with.
    destruct (Nat.eqb_spec (length a) 1); lia.
  - destruct a as [|x [|x' a]], b as [|y [|y' b]]; cbn in Hab, Hshape;
      try lia; eexists; (split; [reflexivity|]); cbn;
      rewrite ?length_fmap; reflexivity.
Qed.

Lemma np_broadcast_raise {A B} (f : A -> A -> B) (a b : list A) :
  length a <> length b -> length a <> 1 -> length b <> 1 ->
  np_broadcast f a b = Raise ValueError.
Proof.
  intros Hab Ha Hb. unfold np_broadcast.
  destruct (Nat.eqb_spec (length a) (length b)) as [|_]; [lia|].
  destruct a as [|x [|x' a]], b as [|y [|y' b]]; cbn in Ha, Hb, Hab;
    try lia; reflexivity.
Qed.

(** The scan of [next] returns when the indices of the range are within
    the array. *)
Lemma next_not_within_ok (within : list bool) (default : Z) (T : nat) :
  T <= length within ->
  exists i, next_not_within within (range_down T) default = Ok i.
Proof.
  intros HT. unfold range_down.
  destruct (next_not_within_scan within default (T - 1))
    as [[Hnext _]|(i & _ & Hnext & _)].
  - intros i Hi. apply lookup_lt_is_Some_2. lia.
  - eauto.
  - eauto.
Qed.

Lemma calculate_performance_metrics_shapes_ok (self : ClosedLoop.t)
    (trajectory : Trajectory) (mission : Mission) :
  metrics_shapes (length (position trajectory)) (length (reference mission)) ->
  exists metrics, calculate_performance_metrics self trajectory mission = Ok metrics.
Proof.
  intros Hshapes. unfold calculate_performance_metrics, settling_time.
  set (position_y := column_y trajectory).
  set (reference_y := reference mission).
  assert (Hn : length position_y = length (position trajectory))
    by apply length_fmap.
  fold reference_y in Hshapes. rewrite <- Hn in Hshapes.
  destruct (np_broadcast_ok PrimFloat.sub position_y reference_y)
    as (deviation & -> & Hdev); [unfold metrics_shapes in Hshapes; lia|].
  cbn [rbind].
  assert (HL : 1 <= length deviation
               /\ (length deviation = length reference_y
                   \/ length reference_y = 1)).
  { rewrite Hdev. unfold metrics_shapes in Hshapes.
    destruct (Nat.eqb_spec (length position_y) 1); lia. }
  destruct (np_max_is_max (np_abs deviation)) as (max_deviation & -> & _);
    [unfold np_abs; rewrite length_fmap; lia|].
  destruct (np_max_is_max (np_abs reference_y)) as (max_reference & -> & _);
    [unfold np_abs, metrics_shapes in *; rewrite length_fmap; lia|].
  destruct (index_last_ok position_y) as (last_position & -> & _);
    [unfold metrics_shapes in Hshapes; lia|].
  destruct (index_last_ok reference_y) as (last_reference & -> & _);
    [unfold metrics_shapes in Hshapes; lia|].
  cbn [rbind].
  destruct (np_broadcast_ok PrimFloat.ltb (np_abs deviation)
              (PrimFloat.mul 0.02 <$> np_abs reference_y))
    as (within & -> & Hwithin);
    [unfold np_abs; rewrite !length_fmap; lia|].
  cbn [rbind].
  destruct (next_not_within_ok within (Z.of_nat (length reference_y) - 1)
              (length reference_y)) as (i & ->).
  { rewrite Hwithin. unfold np_abs. rewrite !length_fmap.
    destruct (Nat.eqb_spec (length deviation) 1); lia. }
  cbn [rbind]. eexists. reflexivity.
Qed.

Lemma calculate_performance_metrics_shapes_raise (self : ClosedLoop.t)
    (trajectory : Trajectory) (mission : Mission) :
  ~ metrics_shapes (length (position trajectory)) (length (reference mission)) ->
  calculate_performance_metrics self trajectory mission = Raise ValueError.
Proof.
  intros Hshapes. unfold calculate_performance_metrics.
  set (position_y := column_y trajectory).
  set (reference_y := reference mission).
  assert (Hn : length position_y = length (position trajectory))
    by apply length_fmap.
  fold reference_y in Hshapes. rewrite <- Hn in Hshapes.
  unfold metrics_shapes in Hshapes.
  destruct (decide (length position_y = length reference_y
                    \/ length position_y = 1 \/ length reference_y = 1))
    as [Hok|Hbad].
  - destruct (np_broadcast_ok PrimFloat.sub position_y reference_y Hok)
      as (deviation & -> & Hdev).
    assert (deviation = []) as ->.
    { apply length_zero_iff_nil. rewrite Hdev.
      destruct (Nat.eqb_spec (length position_y) 1); lia. }
    reflexivity.
  - rewrite np_broadcast_raise by lia. reflexivity.
Qed.

(** X9: [calculate_performance_metrics] returns exactly when the trajectory
    and the reference have shapes that numpy combines and that leave
    something to reduce (equal lengths, or one of the lengths 1, and none
    0); on all other inputs it raises [ValueError], and it never raises
    anything else. *)
Theorem calculate_performance_metrics_raises_iff (self : ClosedLoop.t)
    (trajectory : Trajectory) (mission : Mission) :
  ((exists metrics,
      calculate_performance_metrics self trajectory mission = Ok metrics)
   <-> metrics_shapes (length (position trajectory))
         (length (reference mission)))
  /\ (forall e : exn,
        calculate_performance_metrics self trajectory mission = Raise e ->
        e = ValueError).
Proof.
  assert (Hcases :
            metrics_shapes (length (position trajectory))
              (length (reference mission))
            \/ ~ metrics_shapes (length (position trajectory))
                  (length (reference mission)))
    by (unfold metrics_shapes; lia).
  destruct Hcases as [Hok|Hbad].
  - destruct (calculate_performance_metrics_shapes_ok self _ _ Hok)
      as [metrics Hrun].
    rewrite Hrun. split.
    + split; [intros _; exact Hok | eauto].
    + discriminate.
  - rewrite (calculate_performance_metrics_shapes_raise self _ _ Hbad). split.
    + split; [intros [metrics Hrun]; discriminate Hrun | intros Hok; tauto].
    + intros e [= <-]. reflexivity.
Qed.

(** ** What the settling time looks at *)

(** The scan does not read index 0. *)
Lemma next_not_within_tail (w w' : bool) (ws : list bool) (idx : list nat)
    (default : Z) :
  (forall i, i ∈ idx -> 1 <= i) ->
  next_not_within (w :: ws) idx default = next_not_within (w' :: ws) idx default.
Proof.
  induction idx as [|i idx IH]; intros Hidx; [reflexivity|].
  cbn [next_not_within]. unfold index.
  assert (Hi : 1 <= i) by (apply Hidx; left).
  destruct i as [|i]; [lia|]. cbn [lookup list_lookup].
  rewrite IH; [reflexivity|]. intros j Hj. apply Hidx. by right.
Qed.

Lemma range_down_positive (T i : nat) : i ∈ range_down T -> 1 <= i < T.
Proof.
  unfold range_down. rewrite elem_of_reverse, elem_of_seq. lia.
Qed.

Lemma settling_time_first_row (p p' r r' : float) (ps rs : list float) :
  length ps = length rs ->
  settling_time (p :: ps) (r :: rs) = settling_time (p' :: ps) (r' :: rs).
Proof.
  intros Hlen. unfold settling_time.
  rewrite !np_broadcast_same by (cbn [length]; congruence).
  cbn [rbind].
  rewrite !np_broadcast_same
    by (unfold np_abs; rewrite !length_fmap, length_zip_with; cbn [length]; lia).
  cbn [rbind length zip_with np_abs fmap list_fmap].
  rewrite (next_not_within_tail _ (abs (p' - r') <? 0.02 * abs r')%float).
  - reflexivity.
  - intros i Hi. apply range_down_positive in Hi. lia.
Qed.

(** X10: the settling time does not look at the first row.  Two
    trajectories that differ in row 0 only, on two references that differ at
    index 0 only, are reported the same settling time. *)
Theorem settling_time_ignores_first_row (self : ClosedLoop.t)
    (row row' : float * float) (rows : list (float * float))
    (mission mission' : Mission) (r r' : float) (rs : list float) :
  reference mission = r :: rs ->
  reference mission' = r' :: rs ->
  length rows = length rs ->
  exists metrics metrics' : Metrics,
    calculate_performance_metrics self (mkTrajectory (row :: rows)) mission
    = Ok metrics
    /\ calculate_performance_metrics self (mkTrajectory (row' :: rows)) mission'
       = Ok metrics'
    /\ settling_time_seconds metrics = settling_time_seconds metrics'.
Proof.
  intros Href Href' Hlen.
  destruct (calculate_performance_metrics_ok self (mkTrajectory (row :: rows))
              mission)
    as (? & ? & ? & ? & steps & _ & _ & _ & _ & Hsteps & Hrun).
  { rewrite Href. unfold column_y. cbn. rewrite length_fmap. lia. }
  { rewrite Href. cbn. lia. }
  destruct (calculate_performance_metrics_ok self (mkTrajectory (row' :: rows))
              mission')
    as (? & ? & ? & ? & steps' & _ & _ & _ & _ & Hsteps' & Hrun').
  { rewrite Href'. unfold column_y. cbn. rewrite length_fmap. lia. }
  { rewrite Href'. cbn. lia. }
  eexists. eexists. split; [exact Hrun|]. split; [exact Hrun'|].
  cbn [settling_time_seconds]. f_equal.
  rewrite Href in Hsteps. rewrite Href' in Hsteps'.
  unfold column_y in Hsteps, Hsteps'. cbn [position fmap list_fmap] in Hsteps, Hsteps'.
  rewrite (settling_time_first_row _ row'.2 _ r') in Hsteps
    by (rewrite length_fmap; exact Hlen).
  congruence.
Qed.

Lemma settling_time_ignores_first_row_witness :
  exists metrics metrics' : Metrics,
    calculate_performance_metrics Examples.driver
      (mkTrajectory [(0, 1); (1, 0); (2, 1)]%float) Examples.unit_mission
    = Ok metrics
    /\ calculate_performance_metrics Examples.driver
         (mkTrajectory [(0, 50); (1, 0); (2, 1)]%float) Examples.unit_mission
       = Ok metrics'
    /\ settling_time_seconds metrics = settling_time_seconds metrics'.
Proof.
  apply (settling_time_ignores_first_row Examples.driver
           (0, 1)%float (0, 50)%float [(1, 0); (2, 1)]%float
           Examples.unit_mission Examples.unit_mission 1%float 1%float
           [1; 1]%float).
  - reflexivity.
  - reflexivity.
  - reflexivity.
Defined.

(** X11: on a trajectory and a reference of the same length T >= 1, the
    settling time reported is a whole number of steps times [dt]; the number
    of steps is at most T, and at least 2 as soon as T >= 2 (it is 1 for
    T = 1). *)
Theorem settling_time_bounds (self : ClosedLoop.t)
    (trajectory : Trajectory) (mission : Mission) :
  let T := length (reference mission) in
  length (position trajectory) = T ->
  1 <= T ->
  exists (metrics : Metrics) (steps : Z),
    calculate_performance_metrics self trajectory mission = Ok metrics
    /\ settling_time_seconds metrics
       = (steps * Submarine.dt (ClosedLoop.plant self))%Z
    /\ (1 <= steps <= Z.of_nat T)%Z
    /\ (2 <= T -> (2 <= steps)%Z).
Proof.
  intros T Hlen HT.
  assert (Hlen' : length (column_y trajectory) = length (reference mission))
    by (unfold column_y; rewrite length_fmap; exact Hlen).
  destruct (calculate_performance_metrics_ok self trajectory mission Hlen' HT)
    as (? & ? & ? & ? & steps & _ & _ & _ & _ & Hsteps & Hrun).
  destruct (settling_time_scan _ _ Hlen')
    as (i & Hst & [[-> _]|(n & -> & Hn & _)]).
  - eexists. exists steps. split; [exact Hrun|]. split; [reflexivity|].
    assert (steps = (Z.of_nat (length (reference mission)) - 1 + 1)%Z)
      by congruence.
    fold T in H. lia.
  - eexists. exists steps. split; [exact Hrun|]. split; [reflexivity|].
    assert (steps = (Z.of_nat n + 1)%Z) by congruence.
    fold T in Hn. lia.
Qed.

Lemma settling_time_bounds_witness :
  exists (metrics : Metrics) (steps : Z),
    calculate_performance_metrics Examples.driver Examples.late_dip
      Examples.long_mission = Ok metrics
    /\ settling_time_seconds metrics = (steps * 1)%Z
    /\ (2 <= steps <= 4)%Z.
Proof.
  destruct (settling_time_bounds Examples.driver Examples.late_dip
              Examples.long_mission)
    as (metrics & steps & Hrun & Htime & Hbounds & Hlow).
  - reflexivity.
  - cbn. lia.
  - exists metrics, steps. split; [exact Hrun|]. split; [exact Htime|].
    cbn in Hbounds, Hlow. lia.
Defined.

(** ** Zeros in the reference *)

(** A float that compares equal to 0 is 0 or -0, and its absolute value is
    0. *)
Lemma float_abs_zero (r : float) : (r =? 0)%float = true -> abs r = 0%float.
Proof.
  rewrite FloatAxioms.eqb_spec. intros Hr.
  apply Prim2SF_inj. rewrite abs_spec.
  change (Prim2SF 0) with (S754_zero false) in *.
  destruct (Prim2SF r) as [s|[]| |[] m e]; cbn in Hr; try discriminate Hr.
  reflexivity.
Qed.

(** No absolute value is below 0. *)
Lemma float_abs_ltb_zero (x : float) : (abs x <? 0)%float = false.
Proof.
  rewrite ltb_spec, abs_spec.
  change (Prim2SF 0) with (S754_zero false).
  destruct (Prim2SF x) as [s|s| |s m e]; reflexivity.
Qed.

(** An absolute value divided by 0, as a percentage: a NaN or the positive
    infinity. *)
Lemma float_abs_div_zero (z : float) :
  (abs z / 0 * 100)%float = nan \/ (abs z / 0 * 100)%float = infinity.
Proof.
  assert (H : Prim2SF (abs z / 0 * 100)%float = S754_nan
              \/ Prim2SF (abs z / 0 * 100)%float = S754_infinity false).
  { rewrite mul_spec, div_spec, abs_spec.
    change (Prim2SF 0) with (S754_zero false).
    change (Prim2SF 100) with (S754_finite false 7036874417766400 (-46)).
    destruct (Prim2SF z) as [s|s| |s m e]; cbn; auto. }
  destruct H as [H|H]; [left|right]; apply Prim2SF_inj; rewrite H; reflexivity.
Qed.

Lemma spec_within_zero_reference (position_y reference_y : list float)
    (t : nat) (r : float) :
  length position_y = length reference_y ->
  reference_y !! t = Some r ->
  (r =? 0)%float = true ->
  spec_within position_y reference_y t = Some false.
Proof.
  intros Hlen Hr Hzero. unfold spec_within.
  destruct (lookup_lt_is_Some_2 position_y t) as [p Hp].
  { rewrite Hlen. eapply lookup_lt_Some, Hr. }
  rewrite Hp, Hr. cbn. rewrite (float_abs_zero r Hzero).
  change (0.02 * 0)%float with 0%float.
  rewrite float_abs_ltb_zero. reflexivity.
Qed.

(** X12: where the reference is 0 the tolerance band is empty, and no depth
    is within it, not even the reference itself.  So on a trajectory and a
    reference of the same length T >= 1 whose last reference is 0 (or -0),
    the settling time reported is [T * dt], whatever the trajectory. *)
Theorem settling_time_zero_last_reference (self : ClosedLoop.t)
    (trajectory : Trajectory) (mission : Mission) (r : float) :
  let T := length (reference mission) in
  length (position trajectory) = T ->
  reference mission !! (T - 1) = Some r ->
  (r =? 0)%float = true ->
  exists metrics : Metrics,
    calculate_performance_metrics self trajectory mission = Ok metrics
    /\ settling_time_seconds metrics
       = (Z.of_nat T * Submarine.dt (ClosedLoop.plant self))%Z.
Proof.
  intros T Hlen Hr Hzero.
  assert (HT : 1 <= T) by (apply lookup_lt_Some in Hr; fold T in Hr; lia).
  assert (Hlen' : length (column_y trajectory) = length (reference mission))
    by (unfold column_y; rewrite length_fmap; exact Hlen).
  destruct (calculate_performance_metrics_ok self trajectory mission Hlen' HT)
    as (? & ? & ? & ? & steps & _ & _ & _ & _ & Hsteps & Hrun).
  eexists. split; [exact Hrun|]. cbn [settling_time_seconds]. f_equal.
  pose proof (spec_within_zero_reference _ _ _ _ Hlen' Hr Hzero) as Hlast.
  destruct (settling_time_scan _ _ Hlen')
    as (i & Hst & [[-> _]|(n & -> & Hn & _ & Hall)]).
  - assert (steps = (Z.of_nat (length (reference mission)) - 1 + 1)%Z)
      as -> by congruence.
    fold T. lia.
  - assert (steps = (Z.of_nat n + 1)%Z) as -> by congruence.
    fold T in Hn, Hall.
    destruct (decide (n = T - 1)) as [->|Hne]; [lia|].
    rewrite (Hall (T - 1)) in Hlast by lia. discriminate Hlast.
Qed.

Lemma settling_time_zero_last_reference_witness :
  exists metrics : Metrics,
    calculate_performance_metrics Examples.driver
      (mkTrajectory [(0, 0); (1, 0); (2, 0); (3, 0); (4, 0)]%float)
      Examples.flat_mission = Ok metrics
    /\ settling_time_seconds metrics = 5%Z.
Proof.
  apply (settling_time_zero_last_reference Examples.driver
           (mkTrajectory [(0, 0); (1, 0); (2, 0); (3, 0); (4, 0)]%float)
           Examples.flat_mission 0%float).
  - reflexivity.
  - reflexivity.
  - reflexivity.
Defined.

Lemma foldl_np_maximum_zeros (n : nat) :
  foldl np_maximum 0%float (replicate n 0%float) = 0%float.
Proof. induction n as [|n IH]; [reflexivity|]. cbn [replicate foldl]. exact IH. Qed.

(** X13: a reference of zeros does not make the metrics raise: on a
    trajectory and a reference of the same length T >= 1 whose entries are
    all 0 (or -0), the division by the maximum 0 of the reference gives an
    overshoot that is a NaN or the positive infinity. *)
Theorem overshoot_zero_reference (self : ClosedLoop.t)
    (trajectory : Trajectory) (mission : Mission) :
  let T := length (reference mission) in
  length (position trajectory) = T ->
  1 <= T ->
  Forall (fun r => (r =? 0)%float = true) (reference mission) ->
  exists metrics : Metrics,
    calculate_performance_metrics self trajectory mission = Ok metrics
    /\ (overshoot metrics = nan \/ overshoot metrics = infinity).
Proof.
  intros T Hlen HT Hzeros.
  assert (Hlen' : length (column_y trajectory) = length (reference mission))
    by (unfold column_y; rewrite length_fmap; exact Hlen).
  destruct (calculate_performance_metrics_ok self trajectory mission Hlen' HT)
    as (max_deviation & max_reference & ? & ? & steps
        & Hdev & Href & _ & _ & _ & Hrun).
  eexists. split; [exact Hrun|]. cbn [overshoot].
  assert (Habs : abs <$> reference mission = replicate T 0%float).
  { apply list_eq. intros i. rewrite list_lookup_fmap.
    destruct (reference mission !! i) as [r|] eqn:Hr; cbn.
    - rewrite lookup_replicate_2 by (apply lookup_lt_Some in Hr; exact Hr).
      f_equal. apply float_abs_zero.
      rewrite Forall_lookup in Hzeros. apply (Hzeros i r Hr).
    - symmetry. apply lookup_replicate_None.
      apply lookup_ge_None in Hr. exact Hr. }
  assert (max_reference = 0%float) as ->.
  { rewrite Habs in Href. destruct T as [|T']; [lia|].
    cbn [replicate np_max] in Href. rewrite foldl_np_maximum_zeros in Href.
    congruence. }
  destruct (np_max_is_max
              (zip_with (fun p r => abs (p - r)%float) (column_y trajectory)
                 (reference mission)))
    as (m & Hm & [Hin _]); [rewrite length_zip_with; lia|].
  assert (m = max_deviation) as -> by congruence.
  apply elem_of_zip_with in Hin as (p & r & -> & _ & _).
  apply float_abs_div_zero.
Qed.

Lemma overshoot_zero_reference_witness :
  exists metrics : Metrics,
    calculate_performance_metrics Examples.driver
      (mkTrajectory [(0, 0); (1, 0); (2, 1); (3, 2); (4, 2)]%float)
      Examples.flat_mission = Ok metrics
    /\ (overshoot metrics = nan \/ overshoot metrics = infinity).
Proof.
  apply (overshoot_zero_reference Examples.driver
           (mkTrajectory [(0, 0); (1, 0); (2, 1); (3, 2); (4, 2)]%float)
           Examples.flat_mission).
  - reflexivity.
  - cbn. lia.
  - repeat constructor.
Defined.

(** ** The run on random disturbances *)

(** X14: whatever the disturbances drawn, one per step of the mission,
    [simulate_with_random_disturbances] raises nothing on a mission of
    horizon T >= 1: it returns the trajectory that [simulate] returns on the
    draws, with T rows, leaves the driver as [simulate] does, and prints the
    metrics of that trajectory.  On an empty mission it raises [ValueError]
    (from the metrics), after [simulate] has reset the vehicle. *)
Theorem simulate_with_random_disturbances_spec (draws : list float)
    (mission : Mission) (self : ClosedLoop.t) :
  let T := length (reference mission) in
  length draws = T ->
  (1 <= T ->
   exists (trajectory : Trajectory) (metrics : Metrics) (self' : ClosedLoop.t),
     simulate_with_random_disturbances draws mission self
     = (Ok (trajectory, metrics), self')
     /\ ClosedLoop.simulate mission draws self = (Ok trajectory, self')
     /\ length (position trajectory) = T
     /\ calculate_performance_metrics self' trajectory mission = Ok metrics)
  /\ (T = 0 ->
      simulate_with_random_disturbances draws mission self
      = (Raise ValueError, Loop.reset self)).
Proof.
  intros T Hdraws.
  assert (Hlen : length (reference mission) <= length draws) by (fold T; lia).
  unfold simulate_with_random_disturbances, ClosedLoop.bind, ClosedLoop.ret.
  rewrite (simulate_ok _ _ _ Hlen).
  set (rds := zip (reference mission) draws).
  assert (Hrds : length rds = T).
  { unfold rds. rewrite length_zip_with. fold T. lia. }
  split.
  - intros HT.
    destruct (calculate_performance_metrics_shapes_ok
                (Loop.run (Loop.reset self) rds).2
                (mkTrajectory (Loop.run (Loop.reset self) rds).1) mission)
      as [metrics Hmetrics].
    { left. cbn [position]. rewrite run_length. fold T. lia. }
    rewrite Hmetrics.
    eexists. eexists. eexists. split; [reflexivity|].
    split; [reflexivity|]. split; [|exact Hmetrics].
    cbn [position]. rewrite run_length. exact Hrds.
  - intros HT.
    assert (rds = []) as -> by (apply length_zero_iff_nil; lia).
    cbn [Loop.run fst snd].
    rewrite calculate_performance_metrics_shapes_raise; [reflexivity|].
    cbn [position length]. fold T. unfold metrics_shapes. lia.
Qed.

Lemma simulate_with_random_disturbances_spec_witness :
  exists (trajectory : Trajectory) (metrics : Metrics) (self' : ClosedLoop.t),
    simulate_with_random_disturbances [0.5; -0.25; 0.125]%float
      Examples.unit_mission Examples.driver
    = (Ok (trajectory, metrics), self')
    /\ length (position trajectory) = 3.
Proof.
  destruct (simulate_with_random_disturbances_spec [0.5; -0.25; 0.125]%float
              Examples.unit_mission Examples.driver) as [Hrun _].
  - reflexivity.
  - destruct Hrun as (trajectory & metrics & self' & Hrun & _ & Hrows & _).
    + cbn. lia.
    + exists trajectory, metrics, self'. split; [exact Hrun | exact Hrows].
Defined.

(** ** Calls in a row *)

(** X15: a call of [simulate] that leaves [previous_error] as it found it
    can be repeated: the next call, on the same inputs, returns the same
    trajectory and leaves the same driver. *)
Theorem simulate_repeatable (mission : Mission) (disturbances : list float)
    (self self' : ClosedLoop.t) (trajectory : Trajectory) :
  ClosedLoop.simulate mission disturbances self = (Ok trajectory, self') ->
  PDController.previous_error (ClosedLoop.controller self')
  = PDController.previous_error (ClosedLoop.controller self) ->
  ClosedLoop.simulate mission disturbances self' = (Ok trajectory, self').
Proof.
  intros Hrun Herror.
  destruct (Nat.lt_ge_cases (length disturbances) (length (reference mission)))
    as [Hlt|Hge].
  { rewrite (simulate_raises _ _ _ Hlt) in Hrun. discriminate Hrun. }
  rewrite <- Hrun. rewrite !simulate_ok by assumption.
  assert (Hreset : Loop.reset self' = Loop.reset self).
  { rewrite (simulate_ok _ _ _ Hge) in Hrun.
    apply (f_equal snd) in Hrun. cbn [snd] in Hrun. rewrite run_final in Hrun.
    destruct (foldl_step_constants (zip (reference mission) disturbances)
                (Loop.reset self)) as ((Hm & Hd & Hg & Ht) & Hkp & Hkd & _).
    rewrite Hrun in Hm, Hd, Hg, Ht, Hkp, Hkd.
    destruct self as [[] []], self' as [[] []]. cbn in *. subst. reflexivity. }
  rewrite Hreset. reflexivity.
Qed.

Lemma simulate_repeatable_witness :
  exists (trajectory : Trajectory) (self' : ClosedLoop.t),
    ClosedLoop.simulate Examples.flat_mission [0; 0; 0; 0; 0]%float
      Examples.driver = (Ok trajectory, self')
    /\ ClosedLoop.simulate Examples.flat_mission [0; 0; 0; 0; 0]%float self'
       = (Ok trajectory, self').
Proof.
  eexists. eexists. split.
  - vm_compute. reflexivity.
  - apply (simulate_repeatable Examples.flat_mission [0; 0; 0; 0; 0]%float
             Examples.driver).
    + vm_compute. reflexivity.
    + reflexivity.
Defined.

(** ** The metrics of a simulated trajectory *)

Lemma SFabs_binary_round (s s' : bool) (m : positive) (e : Z) :
  SFabs (binary_round prec emax s m e) = SFabs (binary_round prec emax s' m e).
Proof.
  unfold binary_round. destruct (shl_align m e _) as [mz ez].
  unfold binary_round_aux.
  destruct (shr_fexp prec emax (Z.pos mz) ez loc_Exact) as [mrs e'].
  destruct (shr_fexp prec emax _ e' loc_Exact) as [mrs' e''].
  destruct (shr_m mrs'); [reflexivity| |reflexivity].
  destruct (e'' <=? emax - prec)%Z; reflexivity.
Qed.

Lemma SFabs_binary_normalize_opp (m e : Z) :
  SFabs (binary_normalize prec emax m e false)
  = SFabs (binary_normalize prec emax (- m) e false).
Proof.
  destruct m; cbn [Z.opp binary_normalize];
    [reflexivity | apply SFabs_binary_round..].
Qed.

Lemma SFabs_sub_swap (f g : spec_float) :
  SFabs (SF64sub f g) = SFabs (SF64sub g f).
Proof.
  unfold SF64sub, SFsub.
  destruct f as [[]|[]| |s m e], g as [[]|[]| |s' m' e']; try reflexivity.
  cbv zeta. rewrite (Z.min_comm e' e), SFabs_binary_normalize_opp.
  do 2 f_equal. lia.
Qed.

(** The distance of two floats is the same in both directions. *)
Lemma float_abs_sub_swap (x y : float) : abs (x - y) = abs (y - x).
Proof.
  apply Prim2SF_inj. rewrite !abs_spec, !sub_spec. apply SFabs_sub_swap.
Qed.

(** X16: the steady-state error that [calculate_performance_metrics]
    reports for the trajectory of a call of [simulate] (on a mission of
    horizon T >= 1) is the magnitude of the [previous_error] that the call
    leaves in the controller. *)
Theorem steady_state_error_is_last_error (mission : Mission)
    (disturbances : list float) (self : ClosedLoop.t) :
  1 <= length (reference mission) ->
  length (reference mission) <= length disturbances ->
  exists (trajectory : Trajectory) (self' : ClosedLoop.t) (metrics : Metrics),
    ClosedLoop.simulate mission disturbances self = (Ok trajectory, self')
    /\ calculate_performance_metrics self' trajectory mission = Ok metrics
    /\ steady_state_error metrics
       = abs (PDController.previous_error (ClosedLoop.controller self')).
Proof.
  intros HT Hlen.
  rewrite (simulate_ok _ _ _ Hlen).
  set (rds := zip (reference mission) disturbances).
  assert (Hrds : length rds = length (reference mission)).
  { unfold rds. rewrite length_zip_with. lia. }
  set (trajectory := mkTrajectory (Loop.run (Loop.reset self) rds).1).
  assert (Hrows : length (column_y trajectory) = length (reference mission)).
  { unfold column_y, trajectory. cbn [position].
    rewrite length_fmap, run_length. exact Hrds. }
  destruct (calculate_performance_metrics_ok (Loop.run (Loop.reset self) rds).2
              trajectory mission Hrows HT)
    as (? & ? & last_position & last_reference & steps
        & _ & _ & Hlp & Hlr & _ & Hrun).
  exists trajectory. eexists. eexists.
  split; [reflexivity|]. split; [exact Hrun|]. cbn [steady_state_error].
  destruct (index_last_ok (column_y trajectory)) as (p & Hp & Hpl); [lia|].
  destruct (index_last_ok (reference mission)) as (r & Hr & Hrl); [lia|].
  assert (p = last_position) as -> by congruence.
  assert (r = last_reference) as -> by congruence.
  destruct (lookup_lt_is_Some_2 rds (length rds - 1)) as [rd Hrd]; [lia|].
  pose proof Hrd as Hzip.
  apply lookup_zip_with_Some in Hzip as (r' & d & -> & Hr' & Hd).
  destruct (run_last_error rds (Loop.reset self) r' d Hrd) as (y & Hy & Herror).
  rewrite Herror.
  rewrite Hrds in Hr', Hy. rewrite Hrows in Hpl.
  assert (r' = last_reference) as -> by congruence.
  assert (y = last_position) as ->.
  { unfold column_y, trajectory in Hpl. cbn [position] in Hpl. congruence. }
  apply float_abs_sub_swap.
Qed.

Lemma steady_state_error_is_last_error_witness :
  exists (trajectory : Trajectory) (self' : ClosedLoop.t) (metrics : Metrics),
    ClosedLoop.simulate Examples.unit_mission Examples.calm Examples.driver
    = (Ok trajectory, self')
    /\ calculate_performance_metrics self' trajectory Examples.unit_mission
       = Ok metrics
    /\ steady_state_error metrics
       = abs (PDController.previous_error (ClosedLoop.controller self')).
Proof.
  apply (steady_state_error_is_last_error Examples.unit_mission Examples.calm
           Examples.driver).
  - cbn. lia.
  - cbn. lia.
Defined.
